(** * Insomnia pre-request SDK objects: auth transforms, request/response
    model and the [sendRequest] dispatch bridge.

    Shallow embedding of
    [packages/insomnia/src/renderers/hidden-browser-window/sdk-objects/send-req.ts]
    and [.../sdk-objects/req-resp.ts].  JavaScript objects that the code
    treats as [Record<string, any>] are property lists over a small universe
    of JavaScript values; thrown [Error]s are the [Throw] case of [result];
    objects that the code shares by reference live in an explicit store. *)

From Stdlib Require Import String Ascii List ZArith Bool Lia.
From stdpp Require Import gmap strings list pretty.
Import ListNotations.

Set Warnings "-register-all".
Open Scope string_scope.
Open Scope list_scope.

(** ** JavaScript values *)

Module JS.

(** The values that flow through the auth tables.  Numbers are the
    integer-valued ones: [VNum n] is the Number that the literal [n]
    denotes, which is [n] itself up to 2^53. *)
Inductive value : Type :=
| VUndefined
| VNull
| VBool (b : bool)
| VNum (n : Z)
| VStr (s : string)
| VObj (fields : list (string * value))
| VArr (items : list value).

Definition obj := list (string * value).

(** ToBoolean. *)
Definition truthy (v : value) : bool :=
  match v with
  | VUndefined | VNull => false
  | VBool b => b
  | VNum n => negb (n =? 0)%Z
  | VStr s => negb (s =? "")
  | VObj _ | VArr _ => true
  end.

(** [a || b]. *)
Definition jor (a b : value) : value := if truthy a then a else b.

(** Property read [o.k] on an object literal; a missing property is
    [undefined]. *)
Fixpoint field (o : obj) (k : string) : value :=
  match o with
  | [] => VUndefined
  | (k', v) :: rest => if k' =? k then v else field rest k
  end.

(** Property read [v.k] where [v] is known not to be null or undefined:
    primitives and arrays carry none of the property names used here. *)
Definition get (v : value) (k : string) : value :=
  match v with
  | VObj o => field o k
  | _ => VUndefined
  end.

(** [v === s] for a string literal [s]. *)
Definition is_str (v : value) (s : string) : bool :=
  match v with
  | VStr s' => s' =? s
  | _ => false
  end.

(** The Number a numeric literal [a >= 0] denotes: the double nearest to
    [a], ties to the even significand; [None] is [Infinity]. *)
Definition nearest_double (a : Z) : option Z :=
  let bits := (Z.log2 a + 1)%Z in
  if (bits <=? 53)%Z then Some a
  else
    let e := (bits - 53)%Z in
    let q := Z.shiftr a e in
    let r := Z.land a (Z.ones e) in
    let half := Z.shiftl 1 (e - 1) in
    let q' := if (half <? r)%Z || ((r =? half)%Z && Z.odd q) then (q + 1)%Z else q in
    let x := Z.shiftl q' e in
    if (2 ^ 1024 <=? x)%Z then None else Some x.

Definition reads_back (x v : Z) : bool :=
  match nearest_double v with
  | Some y => (y =? x)%Z
  | None => false
  end.

(** Number::toString, step 5: the decimal [s * 10^(n - k)] with the fewest
    digits [k] that reads back as [x]; of two such, the one nearer to [x],
    and the even [s] when they are as near.  [d] is the number of digits of
    [x] and [fuel] counts the [k] still to try. *)
Fixpoint shortest_decimal (x d k : Z) (fuel : nat) : Z :=
  match fuel with
  | O => x
  | S fuel' =>
      let p := (10 ^ (d - k))%Z in
      let lo := (x / p * p)%Z in
      let hi := (lo + p)%Z in
      match reads_back x lo, reads_back x hi with
      | true, true =>
          if (x - lo <? hi - x)%Z then lo
          else if (hi - x <? x - lo)%Z then hi
          else if Z.even (x / p) then lo else hi
      | true, false => lo
      | false, true => hi
      | false, false => shortest_decimal x d (k + 1) fuel'
      end
  end.

(** [v] without its trailing zeros. *)
Fixpoint significand (v : Z) (fuel : nat) : Z :=
  match fuel with
  | O => v
  | S fuel' => if (v mod 10 =? 0)%Z then significand (v / 10) fuel' else v
  end.

(** Number::toString (radix 10) of the Number that the integer [n]
    denotes: plain digits below 10^21, exponent form from there on. *)
Definition Number_toString (n : Z) : string :=
  let sign := if (n <? 0)%Z then "-" else "" in
  match nearest_double (Z.abs n) with
  | None => sign +:+ "Infinity"
  | Some x =>
      if (x =? 0)%Z then "0"
      else
        let d := String.length (pretty x) in
        let v := shortest_decimal x (Z.of_nat d) 1 d in
        let n' := String.length (pretty v) in
        if (n' <=? 21)%nat then sign +:+ pretty v
        else
          let e := pretty (Z.of_nat n' - 1)%Z in
          match pretty (significand v n') with
          | String c EmptyString => sign +:+ String c ("e+" +:+ e)
          | String c rest => sign +:+ String c ("." +:+ rest +:+ "e+" +:+ e)
          | EmptyString => sign
          end
  end.

(** ToString, as a template literal applies it. *)
Fixpoint to_string (v : value) : string :=
  match v with
  | VUndefined => "undefined"
  | VNull => "null"
  | VBool true => "true"
  | VBool false => "false"
  | VNum n => Number_toString n
  | VStr s => s
  | VObj _ => "[object Object]"
  | VArr items =>
      (* Array.prototype.join: null and undefined items print as empty *)
      let elt (x : value) : string :=
        match x with
        | VUndefined | VNull => ""
        | _ => to_string x
        end in
      (fix join (l : list value) : string :=
         match l with
         | [] => ""
         | x :: rest =>
             match rest with
             | [] => elt x
             | _ :: _ => elt x +:+ "," +:+ join rest
             end
         end) items
  end.

(** What a call gives that may answer [undefined] or [null] instead of an
    object. *)
Inductive nullable (A : Type) : Type :=
| Defined (a : A)
| Undefined
| Null.
Arguments Defined {A} a.
Arguments Undefined {A}.
Arguments Null {A}.

(** A thrown [Error]: its [name] and [message]. *)
Record JsError := mkError { name : string; message : string }.

Definition Error (msg : string) : JsError := mkError "Error" msg.

Inductive result (A : Type) : Type :=
| Ok (a : A)
| Throw (e : JsError).
Arguments Ok {A} a.
Arguments Throw {A} e.

Definition bind {A B} (r : result A) (k : A -> result B) : result B :=
  match r with
  | Ok a => k a
  | Throw e => Throw e
  end.

End JS.
Import JS.

Notation "x <- r ;; k" := (JS.bind r (fun x => k))
  (at level 100, r at next level, right associativity, only parsing).

(** ** Auth transform table (send-req.ts) *)

Module Auth.

Definition AUTH_NONE := "none".
Definition AUTH_API_KEY := "apikey".
Definition AUTH_OAUTH_2 := "oauth2".
Definition AUTH_OAUTH_1 := "oauth1".
Definition AUTH_BASIC := "basic".
Definition AUTH_DIGEST := "digest".
Definition AUTH_BEARER := "bearer".
Definition AUTH_NTLM := "ntlm".
Definition AUTH_HAWK := "hawk".
Definition AUTH_AWS_IAM := "iam".
Definition AUTH_NETRC := "netrc".
Definition AUTH_ASAP := "asap".
Definition HAWK_ALGORITHM_SHA256 := "sha256".
Definition HAWK_ALGORITHM_SHA1 := "sha1".

(** [transformAuth(type, oldAuth = {})]; [None] is the omitted argument. *)
Definition transformAuth (type : string) (oldAuth0 : option obj) : value :=
  let oldAuth := match oldAuth0 with Some o => o | None => [] end in
  if type =? AUTH_NONE then
    VObj []
  else if type =? AUTH_BASIC then
    VObj [ ("type", VStr type);
           ("useISO88591", jor (field oldAuth "useISO88591") (VBool false));
           ("disabled", jor (field oldAuth "disabled") (VBool false));
           ("username", jor (field oldAuth "username") (VStr ""));
           ("password", jor (field oldAuth "password") (VStr "")) ]
  else if (type =? AUTH_DIGEST) || (type =? AUTH_NTLM) then
    VObj [ ("type", VStr type);
           ("disabled", jor (field oldAuth "disabled") (VBool false));
           ("username", jor (field oldAuth "username") (VStr ""));
           ("password", jor (field oldAuth "password") (VStr "")) ]
  else if type =? AUTH_OAUTH_1 then
    VObj [ ("type", VStr type);
           ("disabled", VBool false);
           ("signatureMethod", VStr "HMAC-SHA1");
           ("consumerKey", VStr "");
           ("consumerSecret", VStr "");
           ("tokenKey", VStr "");
           ("tokenSecret", VStr "");
           ("privateKey", VStr "");
           ("version", VStr "1.0");
           ("nonce", VStr "");
           ("timestamp", VStr "");
           ("callback", VStr "") ]
  else if type =? AUTH_OAUTH_2 then
    VObj [ ("type", VStr type);
           ("grantType", VStr "authorization_code") ]
  else if type =? AUTH_AWS_IAM then
    VObj [ ("type", VStr type);
           ("disabled", jor (field oldAuth "disabled") (VBool false));
           ("accessKeyId", jor (field oldAuth "accessKeyId") (VStr ""));
           ("secretAccessKey", jor (field oldAuth "secretAccessKey") (VStr ""));
           ("sessionToken", jor (field oldAuth "sessionToken") (VStr "")) ]
  else if type =? AUTH_HAWK then
    VObj [ ("type", VStr type);
           ("algorithm", VStr HAWK_ALGORITHM_SHA256) ]
  else if type =? AUTH_ASAP then
    VObj [ ("type", VStr type);
           ("issuer", VStr "");
           ("subject", VStr "");
           ("audience", VStr "");
           ("additionalClaims", VStr "");
           ("keyId", VStr "");
           ("privateKey", VStr "") ]
  else
    (* case AUTH_NETRC: default: *)
    VObj [ ("type", VStr type) ].

(** One [{ key: string; value: string }] entry of a scheme-named array. *)
Record KV := mkKV { kv_key : string; kv_value : string }.

Definition kv_object (kv : KV) : value :=
  VObj [ ("key", VStr (kv_key kv)); ("value", VStr (kv_value kv)) ].

(** What [auth.toJSON()] hands to [transformAuthentication]: the [type]
    and the scheme-named arrays present on the object (the [RequestAuth]
    class itself is in ./auth). *)
Record AuthJSON := mkAuthJSON {
  auth_type : string;
  auth_schemes : list (string * list KV)
}.

(** [authObj.<scheme>]: the array, or [None] for an absent property. *)
Fixpoint scheme (props : list (string * list KV)) (name : string)
  : option (list KV) :=
  match props with
  | [] => None
  | (n, kvs) :: rest => if n =? name then Some kvs else scheme rest name
  end.

(** The local [findValueInObj]: [kvs.find(cb, '')] yields the first
    ENTRY for which the callback is truthy, or [undefined]. *)
Definition findValueInObj (targetKey : string) (kvs : option (list KV)) : value :=
  match kvs with
  | None => VStr ""
  | Some l =>
      match List.find
              (fun kv => truthy (if kv_key kv =? targetKey
                                 then VStr (kv_value kv) else VStr "")) l with
      | Some kv => kv_object kv
      | None => VUndefined
      end
  end.

Definition transformAuthentication (authObj : AuthJSON) : result value :=
  let ty := auth_type authObj in
  let arr := scheme (auth_schemes authObj) in
  if ty =? "noauth" then
    Ok (transformAuth AUTH_NONE (Some []))
  else if ty =? "basic" then
    Ok (transformAuth AUTH_BASIC (Some
          [ ("useISO88591", VBool false);
            ("disabled", VBool false);
            ("username", findValueInObj "username" (arr "basic"));
            ("password", findValueInObj "password" (arr "basic")) ]))
  else if ty =? "digest" then
    Ok (transformAuth AUTH_DIGEST (Some
          [ ("disabled", VBool false);
            ("username", findValueInObj "username" (arr "digest"));
            ("password", findValueInObj "password" (arr "digest")) ]))
  else if ty =? "ntlm" then
    Ok (transformAuth AUTH_NTLM (Some
          [ ("disabled", VBool false);
            ("username", findValueInObj "username" (arr "ntlm"));
            ("password", findValueInObj "password" (arr "ntlm")) ]))
  else if ty =? "oauth1" then
    Ok (transformAuth AUTH_OAUTH_1 (Some
          [ ("disabled", VBool false);
            ("consumerKey", findValueInObj "consumerKey" (arr "oauth1"));
            ("consumerSecret", findValueInObj "consumerSecret" (arr "oauth1"));
            ("tokenKey", findValueInObj "token" (arr "oauth1"));
            ("tokenSecret", findValueInObj "tokenSecret" (arr "oauth1"));
            ("privateKey", findValueInObj "consumerSecret" (arr "oauth1"));
            ("version", findValueInObj "version" (arr "oauth1"));
            ("nonce", findValueInObj "nonce" (arr "oauth1"));
            ("timestamp", findValueInObj "timestamp" (arr "oauth1"));
            ("callback", findValueInObj "callback" (arr "oauth1")) ]))
  else if ty =? "oauth2" then
    Ok (transformAuth AUTH_OAUTH_2 (Some []))
  else if ty =? "awsv4" then
    Ok (transformAuth AUTH_AWS_IAM (Some
          [ ("disabled", VBool false);
            ("accessKeyId", findValueInObj "accessKey" (arr "awsv4"));
            ("secretAccessKey", findValueInObj "secretKey" (arr "awsv4"));
            ("sessionToken", findValueInObj "sessionToken" (arr "awsv4")) ]))
  else if ty =? "hawk" then
    Ok (transformAuth AUTH_HAWK (Some []))
  else if ty =? "asap" then
    Ok (transformAuth AUTH_ASAP (Some
          [ ("issuer", findValueInObj "iss" (arr "asap"));
            ("subject", findValueInObj "sub" (arr "asap"));
            ("audience", findValueInObj "aud" (arr "asap"));
            ("additionalClaims", findValueInObj "claims" (arr "asap"));
            ("keyId", findValueInObj "kid" (arr "asap"));
            ("privateKey", findValueInObj "privateKey" (arr "asap")) ]))
  else if ty =? "netrc" then
    Ok (transformAuth AUTH_NETRC (Some []))
  else
    Throw (Error ("unknown auth type: " +:+ ty)).

(** [{ key: 'k', value: auth.k }]: every entry reads the property it is
    keyed by. *)
Definition entry (auth : value) (k : string) : value :=
  VObj [ ("key", VStr k); ("value", get auth k) ].

Definition noauth : value := VObj [ ("type", VStr "noauth") ].

Definition transformToPreRequestAuth (auth : value) : result value :=
  if negb (truthy auth) || negb (truthy (get auth "type")) then
    Ok noauth
  else
    let ty := get auth "type" in
    let e := entry auth in
    if is_str ty "noauth" then
      Ok noauth
    else if is_str ty "basic" then
      Ok (VObj [ ("type", VStr "basic");
                 ("basic", VArr [ e "useISO88591"; e "disabled";
                                  e "username"; e "password" ]) ])
    else if is_str ty "digest" then
      Ok (VObj [ ("type", VStr "digest");
                 ("digest", VArr [ e "disabled"; e "username"; e "password" ]) ])
    else if is_str ty "ntlm" then
      Ok (VObj [ ("type", VStr "ntlm");
                 ("ntlm", VArr [ e "disabled"; e "username"; e "password" ]) ])
    else if is_str ty "oauth1" then
      Ok (VObj [ ("type", VStr "oauth1");
                 ("oauth1", VArr [ e "disabled"; e "consumerKey";
                                   e "consumerSecret"; e "tokenKey";
                                   e "tokenSecret"; e "privateKey";
                                   e "version"; e "nonce"; e "timestamp";
                                   e "callback" ]) ])
    else if is_str ty "oauth2" then
      Ok (VObj [ ("type", VStr "oauth2");
                 ("oauth2", VArr [ e "key"; e "value"; e "enabled"; e "send_as" ]) ])
    else if is_str ty "awsv4" then
      Ok (VObj [ ("type", VStr "awsv4");
                 ("awsv4", VArr [ e "disabled"; e "accessKeyId";
                                  e "secretAccessKey"; e "sessionToken" ]) ])
    else if is_str ty "hawk" then
      Ok (VObj [ ("type", VStr "hawk");
                 ("hawk", VArr [ e "includePayloadHash"; e "timestamp";
                                 e "delegation"; e "app"; e "extraData";
                                 e "nonce"; e "user"; e "authKey";
                                 e "authId"; e "algorithm"; e "id" ]) ])
    else if is_str ty "asap" then
      Ok (VObj [ ("type", VStr "asap");
                 ("asap", VArr [ e "exp"; e "claims"; e "sub"; e "privateKey";
                                 e "kid"; e "aud"; e "iss"; e "alg"; e "id" ]) ])
    else if is_str ty "netrc" then
      Throw (Error "net rc is not supported yet")
    else
      Throw (Error ("unknown auth type or unsupported auth type: "
                    +:+ to_string ty)).

(** The [type] strings each boundary has a [case] for. *)
Definition engine_types : list string :=
  [ AUTH_NONE; AUTH_BASIC; AUTH_DIGEST; AUTH_NTLM; AUTH_OAUTH_1;
    AUTH_OAUTH_2; AUTH_AWS_IAM; AUTH_HAWK; AUTH_ASAP ].

Definition sdk_types : list string :=
  [ "noauth"; "basic"; "digest"; "ntlm"; "oauth1"; "oauth2"; "awsv4";
    "hawk"; "asap"; "netrc" ].

End Auth.

(** ** Value types the two files import (./headers, ./cookies, ./urls) *)

Module Props.

(** Modelled from the spec: [HeaderOptions] / [Header] of ./headers, an
    entry of the ordered header list: a key (case preserved), a value and
    the [disabled] flag.  [toJSON] gives the options back. *)
Record HeaderOptions := mkHeaderOptions {
  ho_key : string;
  ho_value : string;
  ho_disabled : option bool
}.

Record Header := mkHeader {
  key : string;
  value : string;
  disabled : option bool
}.

Definition Header_new (o : HeaderOptions) : Header :=
  mkHeader (ho_key o) (ho_value o) (ho_disabled o).

Definition Header_toJSON (h : Header) : HeaderOptions :=
  mkHeaderOptions (key h) (value h) (disabled h).

(** Modelled from the spec: [QueryParam] of ./urls, a key/value pair of a
    URL query or of a urlencoded body. *)
Record QueryParam := mkQueryParam { qp_key : string; qp_value : string }.

(** [FormParam] (req-resp.ts). *)
Record FormParam := mkFormParam { fp_key : string; fp_value : string }.

Definition FormParam_toJSON (p : FormParam) : string * string :=
  (fp_key p, fp_value p).

Definition FormParam_toString (p : FormParam) : string :=
  fp_key p +:+ "=" +:+ fp_value p.

Definition FormParam_valueOf (p : FormParam) : string := fp_value p.

(** [CookieOptions] of ./cookies, as [fromCurlOutputToResponse] fills it. *)
Record CookieOptions := mkCookieOptions {
  c_key : string;
  c_value : string;
  c_expires : JS.value;
  c_maxAge : JS.value;
  c_domain : JS.value;
  c_path : JS.value;
  c_secure : JS.value;
  c_httpOnly : JS.value;
  c_hostOnly : JS.value
}.

(** Modelled from the spec: the SDK [Cookie] of ./cookies, which keeps the
    options it was built from. *)
Record Cookie := mkCookie { cookie_options : CookieOptions }.

Definition Cookie_new (o : CookieOptions) : Cookie := mkCookie o.

End Props.
Import Props.

(** ** RequestBody (req-resp.ts) *)

Module Body.

Record RequestBodyOptions := mkRequestBodyOptions {
  opt_mode : option string;
  opt_file : option string;
  opt_formdata : option (list (string * string));
  opt_graphql : option JS.value;
  opt_raw : option string;
  (* a raw encoded string, or the structured list *)
  opt_urlencoded : option (string + list (string * string))
}.

Record RequestBody := mkRequestBody {
  mode : option string;
  file : option string;
  formdata : option (list FormParam);
  graphql : option JS.value;
  raw : option string;
  urlencoded : option (list QueryParam)
}.

(** [`${this.mode}`] *)
Definition mode_text (m : option string) : string :=
  match m with
  | Some s => s
  | None => "undefined"
  end.

Definition unexpected_mode (m : option string) : JsError :=
  Error ("mode (" +:+ mode_text m +:+ ") is unexpected").

Definition is_null {A} (o : option A) : bool :=
  match o with
  | None => true
  | Some _ => false
  end.

Definition mode_is (m : option string) (s : string) : bool :=
  match m with
  | Some s' => s' =? s
  | None => false
  end.

Definition isEmpty (b : RequestBody) : result bool :=
  if mode_is (mode b) "formdata" then Ok (is_null (formdata b))
  else if mode_is (mode b) "urlencoded" then Ok (is_null (urlencoded b))
  else if mode_is (mode b) "raw" then Ok (is_null (raw b))
  else if mode_is (mode b) "file" then Ok (is_null (file b))
  else if mode_is (mode b) "graphql" then Ok (is_null (graphql b))
  else Throw (unexpected_mode (mode b)).

Section Stringifiers.

(** [PropertyList.toString] (./base) at the two item types, the
    library's [QueryParam.parse] and the built-in [JSON.stringify]. *)
Variable formdata_toString : list FormParam -> result string.
Variable urlencoded_toString : list QueryParam -> result string.
Variable JSON_stringify : JS.value -> result string.
Variable QueryParam_parse : string -> list (string * JS.value).

(** The body of the [try] block. *)
Definition toString_try (b : RequestBody) : result string :=
  if mode_is (mode b) "formdata" then
    match formdata b with
    | Some l => formdata_toString l
    | None => Ok ""
    end
  else if mode_is (mode b) "urlencoded" then
    match urlencoded b with
    | Some l => urlencoded_toString l
    | None => Ok ""
    end
  else if mode_is (mode b) "raw" then
    match raw b with
    | Some s => Ok s            (* '' is falsy and yields '' as well *)
    | None => Ok ""
    end
  else if mode_is (mode b) "file" then
    match file b with
    | Some s => Ok s
    | None => Ok ""
    end
  else if mode_is (mode b) "graphql" then
    match graphql b with
    | Some g => JSON_stringify g
    | None => Ok ""
    end
  else Throw (unexpected_mode (mode b)).

(** [try { ... } catch (e) { return ''; }] *)
Definition toString (b : RequestBody) : string :=
  match toString_try b with
  | Ok s => s
  | Throw _ => ""
  end.

Fixpoint stringify_entries (l : list (string * JS.value))
  : result (list QueryParam) :=
  match l with
  | [] => Ok []
  | (k, v) :: rest =>
      s <- JSON_stringify v ;;
      tl <- stringify_entries rest ;;
      Ok (mkQueryParam k s :: tl)
  end.

(** [new RequestBody(opts)] *)
Definition RequestBody_new (opts : RequestBodyOptions) : result RequestBody :=
  let fd :=
    match opt_formdata opts with
    | Some l => Some (map (fun kv => mkFormParam (fst kv) (snd kv)) l)
    | None => None
    end in
  ue <- match opt_urlencoded opts with
        | Some (inl s) =>
            if s =? "" then Ok None
            else l <- stringify_entries (QueryParam_parse s) ;; Ok (Some l)
        | Some (inr l) =>
            Ok (Some (map (fun kv => mkQueryParam (fst kv) (snd kv)) l))
        | None => Ok None
        end ;;
  Ok {| mode := opt_mode opts;
        file := opt_file opts;
        formdata := fd;
        graphql := opt_graphql opts;
        raw := opt_raw opts;
        urlencoded := ue |}.

End Stringifiers.

Definition recognized_modes : list string :=
  [ "formdata"; "urlencoded"; "raw"; "file"; "graphql" ].

End Body.

(** ** Response (req-resp.ts) *)

Module Resp.

(** A response body as its sequence of UTF-16 code units, which is what
    [charCodeAt] and [slice] see. *)
Definition ustring := list Z.

Record ResponseOptions := mkResponseOptions {
  ro_code : Z;
  ro_reason : option string;
  ro_header : option (list HeaderOptions);
  ro_cookie : option (list CookieOptions);
  ro_body : option ustring;
  ro_stream : option (list Z);
  ro_responseTime : Z;
  ro_status : option string
}.

Record Response := mkResponse {
  body : ustring;
  code : Z;
  cookies : list Cookie;
  headers : list Header;
  responseTime : Z;
  status : option string;
  stream : option (list Z)
}.

Section Constructor.

(** [RESPONSE_CODE_REASONS] of common/constants: the static
    status-code-to-reason table; [None] is a code it has no entry for. *)
Variable RESPONSE_CODE_REASONS : Z -> option string.

(** [new Response(options)] *)
Definition Response_new (options : ResponseOptions) : Response :=
  {| body := match ro_body options with
             | Some b => b          (* '' || '' is '' *)
             | None => []
             end;
     code := ro_code options;
     cookies := match ro_cookie options with
                | Some l => map Cookie_new l
                | None => []
                end;
     headers := match ro_header options with
                | Some l => map Header_new l
                | None => []
                end;
     responseTime := ro_responseTime options;
     status := RESPONSE_CODE_REASONS (ro_code options);
     stream := ro_stream options |}.

End Constructor.

Definition text (r : Response) : ustring := body r.

Definition reason (r : Response) : option string := status r.

(** [content.charCodeAt(i) === n]; out of range [charCodeAt] is NaN. *)
Definition code_is (content : ustring) (i : nat) (n : Z) : bool :=
  match nth_error content i with
  | Some c => (c =? n)%Z
  | None => false
  end.

Definition findBOM (content : ustring) : nat :=
  if code_is content 0 0xFEFF || code_is content 0 0xBBBF then 1
  else if code_is content 0 0xFE && code_is content 1 0xFF then 2
  else if code_is content 0 0xFF && code_is content 1 0xFE then 2
  else if code_is content 0 0xEF && code_is content 1 0xBB
          && code_is content 2 0xBF then 3
  else 0.

(** [s.slice(n)] for [0 <= n]. *)
Definition slice (n : nat) (s : ustring) : ustring := skipn n s.

Section Json.

(** The built-in [JSON.parse(content, reviver)]: a value, or a thrown
    SyntaxError. *)
Variable Reviver : Type.
Variable JSON_parse : ustring -> option Reviver -> result JS.value.

(** [try { return JSON.parse(content, reviver) } catch (e) { throw ... }] *)
Definition parse_or_wrap (content : ustring) (reviver : option Reviver)
  : result JS.value :=
  match JSON_parse content reviver with
  | Ok v => Ok v
  | Throw e => Throw (Error ("failed to get json of body: " +:+ message e))
  end.

(** [json(reviver?, strict?)].  Beside the outcome, the inputs handed to
    [JSON.parse], in call order. *)
Definition json (r : Response) (reviver : option Reviver)
           (strict : option bool) : list ustring * result JS.value :=
  let content := text r in
  let bomIndex := findBOM (text r) in
  if (0 <? bomIndex)%nat then
    if match strict with Some b => b | None => false end then
      ([], Throw (Error "byte order mark (BOM) is found while strict=true"))
    else
      let content := slice bomIndex (text r) in
      ([content], parse_or_wrap content reviver)
  else
    ([content], parse_or_wrap content reviver).

End Json.

(** The byte-order marks: U+FEFF as one code unit, and the UTF-16 marks
    (big and little endian) and the UTF-8 mark unit by unit, as the
    comments of [findBOM] name them. *)
Definition byte_order_marks : list ustring :=
  [ [0xFEFF]; [0xFE; 0xFF]; [0xFF; 0xFE]; [0xEF; 0xBB; 0xBF] ]%Z.

(** [content] after [mark], when it begins with it. *)
Fixpoint after (mark content : ustring) : option ustring :=
  match mark, content with
  | [], _ => Some content
  | m :: mark', c :: content' =>
      if (c =? m)%Z then after mark' content' else None
  | _ :: _, [] => None
  end.

(** The mark among [marks] that [content] begins with, and what follows it. *)
Fixpoint first_mark (marks : list ustring) (content : ustring)
  : option (ustring * ustring) :=
  match marks with
  | [] => None
  | mark :: others =>
      match after mark content with
      | Some rest => Some (mark, rest)
      | None => first_mark others content
      end
  end.

Section JsonByMarks.

Variable Reviver : Type.
Variable JSON_parse : ustring -> option Reviver -> result JS.value.

(** [json] in the words of the specification: a body that begins with a
    byte-order mark fails under [strict] before any parse, and otherwise
    has the mark stripped; what is parsed is the content without the mark,
    and a parse failure is wrapped. *)
Definition json_by_marks (r : Response) (reviver : option Reviver)
           (strict : option bool) : list ustring * result JS.value :=
  match first_mark byte_order_marks (text r) with
  | Some (_, rest) =>
      if match strict with Some b => b | None => false end then
        ([], Throw (Error "byte order mark (BOM) is found while strict=true"))
      else ([rest], parse_or_wrap Reviver JSON_parse rest reviver)
  | None => ([text r], parse_or_wrap Reviver JSON_parse (text r) reviver)
  end.

End JsonByMarks.

End Resp.

(** ** Request (req-resp.ts) *)

Module Req.
Import Auth Body.

(** Modelled from the spec: [Url] of ./urls, a mutable object owning the
    query-parameter list that [addQueryParams] extends; the rest of the
    URL is kept as the text it was built from. *)
Record Url := mkUrl { href : string; query : list QueryParam }.

Definition Url_addQueryParams (params : list QueryParam) (u : Url) : Url :=
  mkUrl (href u) (query u ++ params).

(** Modelled from the spec: [ProxyConfig] of ./proxy-configs. *)
Record ProxyConfig := mkProxyConfig {
  pc_match : JS.value;
  pc_host : JS.value;
  pc_port : JS.value;
  pc_tunnel : JS.value;
  pc_disabled : JS.value;
  pc_authenticate : JS.value;
  pc_username : JS.value;
  pc_password : JS.value
}.

(** Modelled from the spec: [Certificate] of ./certificates; [key], [cert]
    and [pfx] are [{ src }] objects, given here by their [src]. *)
Record Certificate := mkCertificate {
  cert_name : option string;
  cert_matches : option (list string);
  cert_key : option string;
  cert_cert : option string;
  cert_passphrase : option string;
  cert_pfx : option string
}.

(** *** The store of shared objects *)

Definition loc := positive.

Record Store := mkStore {
  urls : gmap loc Url;
  hlists : gmap loc (list Header);
  bodies : gmap loc RequestBody
}.

Definition empty_store : Store := mkStore ∅ ∅ ∅.

(** Computations that read and write the store and may throw. *)
Definition M (A : Type) : Type := Store -> result (A * Store).

Definition ret {A} (a : A) : M A := fun s => Ok (a, s).

Definition mbind {A B} (m : M A) (k : A -> M B) : M B :=
  fun s => match m s with
           | Ok (a, s') => k a s'
           | Throw e => Throw e
           end.

Definition lift {A} (r : result A) : M A :=
  fun s => match r with
           | Ok a => Ok (a, s)
           | Throw e => Throw e
           end.

(** Reading through a reference no object was allocated at. *)
Definition dangling : JsError := mkError "ReferenceError" "dangling reference".

Definition alloc_url (u : Url) : M loc :=
  fun s => let l := fresh (dom (urls s)) in
           Ok (l, mkStore (<[l := u]> (urls s)) (hlists s) (bodies s)).

Definition alloc_hlist (hs : list Header) : M loc :=
  fun s => let l := fresh (dom (hlists s)) in
           Ok (l, mkStore (urls s) (<[l := hs]> (hlists s)) (bodies s)).

Definition alloc_body (b : RequestBody) : M loc :=
  fun s => let l := fresh (dom (bodies s)) in
           Ok (l, mkStore (urls s) (hlists s) (<[l := b]> (bodies s))).

Definition read_url (l : loc) : M Url :=
  fun s => match urls s !! l with
           | Some u => Ok (u, s)
           | None => Throw dangling
           end.

Definition read_hlist (l : loc) : M (list Header) :=
  fun s => match hlists s !! l with
           | Some hs => Ok (hs, s)
           | None => Throw dangling
           end.

Definition read_body (l : loc) : M RequestBody :=
  fun s => match bodies s !! l with
           | Some b => Ok (b, s)
           | None => Throw dangling
           end.

Definition write_url (l : loc) (u : Url) : M unit :=
  fun s => Ok (tt, mkStore (<[l := u]> (urls s)) (hlists s) (bodies s)).

Definition write_hlist (l : loc) (hs : list Header) : M unit :=
  fun s => Ok (tt, mkStore (urls s) (<[l := hs]> (hlists s)) (bodies s)).

(** *** The class *)

Record RequestOptions := mkRequestOptions {
  opt_url : string + loc;            (* a string, or a [Url] object *)
  opt_method : option string;
  (* an array of header options, or a plain object's entries *)
  opt_header : option (list HeaderOptions + list (string * string));
  opt_body : option RequestBodyOptions;
  opt_auth : option AuthJSON;
  opt_proxy : option ProxyConfig;
  opt_certificate : option Certificate
}.

Record Request := mkRequest {
  id : string;                       (* of the [Property] base; '' when unset *)
  url : loc;
  method : string;
  headers : loc;
  body : option loc;
  auth : AuthJSON;                   (* what [this.auth.toJSON()] returns *)
  proxy : option ProxyConfig;
  certificate : option Certificate
}.

Notation "x <~ m ;; k" := (mbind m (fun x => k))
  (at level 100, m at next level, right associativity, only parsing).

(** [s.indexOf('://') >= 0] *)
Definition has_scheme (s : string) : bool :=
  match String.index 0 "://" s with
  | Some _ => true
  | None => false
  end.

Section Methods.

(** What the imported classes do that this file only calls: the [Url]
    constructor on a string, [Url.toString], the string form of
    [addQueryParams], and the parameters of [Body]. *)
Variable Url_parse : string -> Url.
Variable Url_toString : Url -> string.
Variable Url_parseQuery : string -> list QueryParam.
Variable JSON_stringify : JS.value -> result string.
Variable QueryParam_parse : string -> list (string * JS.value).

(** [new Request(options)] *)
Definition Request_new (options : RequestOptions) : M Request :=
  u <~ match opt_url options with
       | inl s =>
           if has_scheme s then alloc_url (Url_parse s)
           else alloc_url (Url_parse ("https://" +:+ s))
       | inr l => ret l                       (* this.url = options.url *)
       end ;;
  let m := match opt_method options with
           | Some m => if m =? "" then "GET" else m
           | None => "GET"
           end in
  hl <~ match opt_header options with
        | Some (inl arr) => alloc_hlist (map Header_new arr)
        | Some (inr entries) =>
            alloc_hlist
              (map (fun e => Header_new (mkHeaderOptions (fst e) (snd e) None))
                   entries)
        | None => alloc_hlist []
        end ;;
  b <~ match opt_body options with
       | Some bo =>
           rb <~ lift (RequestBody_new JSON_stringify QueryParam_parse bo) ;;
           l <~ alloc_body rb ;;
           ret (Some l)
       | None => ret None
       end ;;
  ret {| id := "";
         url := u;
         method := m;
         headers := hl;
         body := b;
         auth := match opt_auth options with
                 | Some a => a
                 | None => mkAuthJSON "noauth" []
                 end;
         proxy := opt_proxy options;
         certificate := opt_certificate options |}.

(** The [body: { mode: this.body?.mode, ... }] literal of [clone] and
    [toJSON]. *)
Definition body_literal (b : option RequestBody) : RequestBodyOptions :=
  {| opt_mode := b' ← b; mode b';
     opt_file := b' ← b; file b';
     opt_formdata := b' ← b; l ← formdata b'; Some (map FormParam_toJSON l);
     opt_graphql := b' ← b; graphql b';
     opt_raw := b' ← b; raw b';
     opt_urlencoded :=
       b' ← b; l ← urlencoded b';
       Some (inr (map (fun q => (qp_key q, qp_value q)) l)) |}.

(** The [certificate: { name: this.certificate?.name, ... }] literal. *)
Definition certificate_literal (c : option Certificate) : Certificate :=
  {| cert_name := c' ← c; cert_name c';
     cert_matches := c' ← c; cert_matches c';
     cert_key := c' ← c; cert_key c';
     cert_cert := c' ← c; cert_cert c';
     cert_passphrase := c' ← c; cert_passphrase c';
     cert_pfx := c' ← c; cert_pfx c' |}.

Definition read_body_opt (b : option loc) : M (option RequestBody) :=
  match b with
  | Some l => rb <~ read_body l ;; ret (Some rb)
  | None => ret None
  end.

Definition clone (this : Request) : M Request :=
  hs <~ read_hlist (headers this) ;;
  b <~ read_body_opt (body this) ;;
  Request_new
    {| opt_url := inr (url this);
       opt_method := Some (method this);
       opt_header := Some (inl (map Header_toJSON hs));
       opt_body := Some (body_literal b);
       opt_auth := Some (auth this);
       opt_proxy := proxy this;
       opt_certificate := Some (certificate_literal (certificate this)) |}.

Definition toJSON (this : Request) : M RequestOptions :=
  u <~ read_url (url this) ;;
  hs <~ read_hlist (headers this) ;;
  b <~ read_body_opt (body this) ;;
  ret {| opt_url := inl (Url_toString u);
         opt_method := Some (method this);
         opt_header := Some (inl (map Header_toJSON hs));
         opt_body := Some (body_literal b);
         opt_auth := Some (auth this);
         opt_proxy := proxy this;
         opt_certificate := Some (certificate_literal (certificate this)) |}.

(** [addHeader] with a [Header] instance or a [{key, value}] object:
    [this.headers.add(headerInstance)] appends in place. *)
Definition addHeader (this : Request) (header : Header) : M unit :=
  hs <~ read_hlist (headers this) ;;
  write_hlist (headers this) (hs ++ [header]).

(** [this.url.addQueryParams(params)] *)
Definition addQueryParams (this : Request)
           (params : string + list QueryParam) : M unit :=
  u <~ read_url (url this) ;;
  let ps := match params with
            | inl s => Url_parseQuery s
            | inr l => l
            end in
  write_url (url this) (Url_addQueryParams ps u).

(** [upsertHeader]: a new list without the same-key headers, then the
    new header appended; [this.headers] is reassigned. *)
Definition upsertHeader (this : Request) (header : HeaderOptions) : M Request :=
  hs <~ read_hlist (headers this) ;;
  hl <~ alloc_hlist
          (filter (fun existingHeader => key existingHeader ≠ ho_key header) hs) ;;
  hs' <~ read_hlist hl ;;
  _ <~ write_hlist hl (hs' ++ [Header_new header]) ;;
  ret {| id := id this; url := url this; method := method this;
         headers := hl; body := body this; auth := auth this;
         proxy := proxy this; certificate := certificate this |}.

(** What a script can read off a request: every field with its
    references followed. *)
Record View := mkView {
  v_url : Url;
  v_method : string;
  v_headers : list Header;
  v_body : option RequestBody;
  v_auth : AuthJSON;
  v_proxy : option ProxyConfig;
  v_certificate : option Certificate
}.

Definition view (this : Request) : M View :=
  u <~ read_url (url this) ;;
  hs <~ read_hlist (headers this) ;;
  b <~ read_body_opt (body this) ;;
  ret (mkView u (method this) hs b (auth this) (proxy this) (certificate this)).

End Methods.

End Req.

(** ** Dispatch bridge (send-req.ts) *)

Module Bridge.
Import Auth.

Record ResponseHeader := mkResponseHeader { rh_name : string; rh_value : string }.

(** [ResponsePatch]: the two fields the bridge reads. *)
Record ResponsePatch := mkResponsePatch {
  bodyCompression : option string;
  elapsedTime : Z
}.

Record HeaderResult := mkHeaderResult {
  hr_headers : list ResponseHeader;
  hr_version : string;
  hr_code : Z;
  hr_reason : string
}.

Record ResponseTimelineEntry := mkTimelineEntry {
  te_name : string;
  te_timestamp : Z;
  te_value : string
}.

Record CurlRequestOutput := mkCurlRequestOutput {
  patch : ResponsePatch;
  debugTimeline : list ResponseTimelineEntry;
  headerResults : list HeaderResult;
  responseBodyPath : option string
}.

(** How a promise settles. *)
Inductive Settled (A : Type) : Type :=
| Resolved (a : A)
| Rejected (e : JsError).
Arguments Resolved {A} a.
Arguments Rejected {A} e.

(** What [window.curl.readCurlResponse] resolves with. *)
Record BodyResult := mkBodyResult {
  br_body : Resp.ustring;
  br_error : option string
}.

(** The object [Cookie.parse] of tough-cookie returns: the fields read. *)
Record ParsedCookie := mkParsedCookie {
  pk_key : string;
  pk_value : string;
  pk_expires : JS.value;
  pk_maxAge : JS.value;
  pk_domain : JS.value;
  pk_path : JS.value;
  pk_secure : JS.value;
  pk_httpOnly : JS.value;
  pk_hostOnly : JS.value
}.

(** Lower case for a string of ASCII characters.  On such a string
    [toLowerCase] of the runtime gives this, and so does
    [toLocaleLowerCase] where the host locale has no rule of its own for
    the letter I; it is what the runs on plain header names below use. *)
Definition lower_ascii (c : ascii) : ascii :=
  let n := nat_of_ascii c in
  if (65 <=? n)%nat && (n <=? 90)%nat then ascii_of_nat (n + 32) else c.

Fixpoint lower_ascii_string (s : string) : string :=
  match s with
  | EmptyString => EmptyString
  | String c rest => String (lower_ascii c) (lower_ascii_string rest)
  end.

(** *** Cookie strings *)

Definition is_wsp (c : ascii) : bool :=
  (nat_of_ascii c =? 32)%nat || (nat_of_ascii c =? 9)%nat.

Fixpoint trim_left (s : string) : string :=
  match s with
  | EmptyString => EmptyString
  | String c rest => if is_wsp c then trim_left rest else s
  end.

Fixpoint trim_right (s : string) : string :=
  match s with
  | EmptyString => EmptyString
  | String c rest =>
      match trim_right rest with
      | EmptyString => if is_wsp c then EmptyString else String c EmptyString
      | rest' => String c rest'
      end
  end.

Definition trim (s : string) : string := trim_right (trim_left s).

(** [s] before and after the first [c]; [None] when [c] is not in [s]. *)
Fixpoint cut (c : ascii) (s : string) : option (string * string) :=
  match s with
  | EmptyString => None
  | String a rest =>
      if Ascii.eqb a c then Some (EmptyString, rest)
      else match cut c rest with
           | Some (before, behind) => Some (String a before, behind)
           | None => None
           end
  end.

(** The pieces of [s] between the occurrences of [c]. *)
Fixpoint split_on (c : ascii) (s : string) : list string :=
  match s with
  | EmptyString => [ EmptyString ]
  | String a rest =>
      match split_on c rest with
      | piece :: others =>
          if Ascii.eqb a c then EmptyString :: piece :: others
          else String a piece :: others
      | [] => [ String a EmptyString ]
      end
  end.

Fixpoint digits_value (s : string) (acc : Z) : option Z :=
  match s with
  | EmptyString => Some acc
  | String c rest =>
      let n := nat_of_ascii c in
      if (48 <=? n)%nat && (n <=? 57)%nat
      then digits_value rest (10 * acc + Z.of_nat (n - 48))
      else None
  end.

(** An optional minus sign and one digit or more. *)
Definition integer_of (s : string) : option Z :=
  match s with
  | EmptyString => None
  | String "-" (String c rest) => option_map Z.opp (digits_value (String c rest) 0)
  | _ => digits_value s 0
  end.

Section StandardCookies.

(** The date a cookie-date string gives (RFC 6265, section 5.1.1), as the
    [Date] object the cookie carries; [None] for a string that is no date. *)
Variable cookie_date : string -> option JS.value.

(** One [cookie-av] applied to the cookie (section 5.2, and 5.2.1 to
    5.2.6): the name is matched in any letter case, an attribute that
    does not fit its rule is ignored, and a later one overrides. *)
Definition with_attribute (c : ParsedCookie) (av : string) : ParsedCookie :=
  let '(attribute, v) :=
    match cut "=" av with
    | Some (a, v) => (lower_ascii_string (trim a), trim v)
    | None => (lower_ascii_string (trim av), "")
    end in
  let set expires maxAge domain path secure httpOnly :=
    mkParsedCookie (pk_key c) (pk_value c) expires maxAge domain path
                   secure httpOnly (pk_hostOnly c) in
  let keep := set (pk_expires c) (pk_maxAge c) (pk_domain c) (pk_path c)
                  (pk_secure c) (pk_httpOnly c) in
  if attribute =? "expires" then
    match cookie_date v with
    | Some date => set date (pk_maxAge c) (pk_domain c) (pk_path c)
                       (pk_secure c) (pk_httpOnly c)
    | None => keep
    end
  else if attribute =? "max-age" then
    match integer_of v with
    | Some delta => set (pk_expires c) (VNum delta) (pk_domain c) (pk_path c)
                        (pk_secure c) (pk_httpOnly c)
    | None => keep
    end
  else if attribute =? "domain" then
    if v =? "" then keep
    else
      let domain := match v with
                    | String "." rest => rest
                    | _ => v
                    end in
      set (pk_expires c) (pk_maxAge c) (VStr (lower_ascii_string domain)) (pk_path c)
          (pk_secure c) (pk_httpOnly c)
  else if attribute =? "path" then
    (* without a path that starts with a slash the cookie has the default
       path, which is the jar's to fill in: the parsed cookie has none *)
    set (pk_expires c) (pk_maxAge c) (pk_domain c)
        (match v with
         | String "/" _ => VStr v
         | _ => VNull
         end)
        (pk_secure c) (pk_httpOnly c)
  else if attribute =? "secure" then
    set (pk_expires c) (pk_maxAge c) (pk_domain c) (pk_path c)
        (VBool true) (pk_httpOnly c)
  else if attribute =? "httponly" then
    set (pk_expires c) (pk_maxAge c) (pk_domain c) (pk_path c)
        (pk_secure c) (VBool true)
  else keep.

(** Modelled from the spec: [Cookie.parse] of the tough-cookie library, by
    the standard cookie-string parsing rules the specification names
    (RFC 6265, section 5.2).  The name-value pair runs to the first
    semicolon; a pair with no [=] or with an empty name makes the whole
    string ignored, which is the answer [undefined]; name and value are
    what stands before and after the first [=], without the white space
    around them.  The attributes follow, between semicolons.  An attribute
    that is not given is [null], [false] for the two flags and the string
    ['Infinity'] for the expiry.  The empty string is answered with [null]
    before any rule applies. *)
Definition Cookie_parse_standard (s : string) : nullable ParsedCookie :=
  if s =? "" then Null
  else
    let '(name_value, attributes) :=
      match cut ";" s with
      | Some (before, rest) => (before, split_on ";" rest)
      | None => (s, [])
      end in
    match cut "=" name_value with
    | None => Undefined
    | Some (n, v) =>
        if trim n =? "" then Undefined
        else
          Defined
            (fold_left with_attribute attributes
               (mkParsedCookie (trim n) (trim v) (VStr "Infinity") VNull
                  VNull VNull (VBool false) (VBool false) VNull))
    end.

End StandardCookies.

(** Reading [.code] of [undefined]. *)
Definition undefined_read : JsError :=
  mkError "TypeError" "Cannot read properties of undefined (reading 'code')".

(** The string of an optional string property that is known to be set,
    and [o || ''] in general. *)
Definition or_empty (o : option string) : string :=
  match o with
  | Some s => s
  | None => ""
  end.

Section Lift.

(** [String.prototype.toLowerCase] of the runtime. *)
Variable toLowerCase : string -> string.
Variable RESPONSE_CODE_REASONS : Z -> option string.
(** [Cookie.parse] of tough-cookie: the cookie, or [undefined] or [null]
    for a string it does not take. *)
Variable Cookie_parse : string -> nullable ParsedCookie.
(** What [new Cookie(null)] does, the class ([./cookies]) being outside
    these files: the cookie it gives or the error it throws. *)
Variable Cookie_of_null : result Cookie.
(** [window.curl.readCurlResponse({ bodyPath, bodyCompression })] *)
Variable readCurlResponse : string -> option string -> Settled BodyResult.

Definition cookieHeaders_of (lastRedirect : HeaderResult) : list ResponseHeader :=
  filter (fun header => toLowerCase (rh_name header) = "set-cookie")
         (hr_headers lastRedirect).

(** The object literal built from a parsed [cookieObj]. *)
Definition options_of (cookieObj : ParsedCookie) : CookieOptions :=
  {| c_key := pk_key cookieObj;
     c_value := pk_value cookieObj;
     c_expires := pk_expires cookieObj;
     c_maxAge := pk_maxAge cookieObj;
     c_domain := pk_domain cookieObj;
     c_path := pk_path cookieObj;
     c_secure := pk_secure cookieObj;
     c_httpOnly := pk_httpOnly cookieObj;
     c_hostOnly := pk_hostOnly cookieObj |}.

(** The [.map(cookieHeader => ...)] callback: the cookie options when
    [cookieObj != null], and else [cookieObj] itself, which is [undefined]
    or [null]. *)
Definition cookie_of (cookieHeader : ResponseHeader) : nullable CookieOptions :=
  (* cookieHeader.value || '' is the value itself for a string *)
  match Cookie_parse (rh_value cookieHeader) with
  | Defined cookieObj => Defined (options_of cookieObj)
  | Undefined => Undefined
  | Null => Null
  end.

(** [.filter(cookieOpt => cookieOpt !== undefined)]: a [null] passes the
    test and stays in the array, here as [None]. *)
Fixpoint not_undefined {A} (l : list (nullable A)) : list (option A) :=
  match l with
  | [] => []
  | Defined a :: rest => Some a :: not_undefined rest
  | Null :: rest => None :: not_undefined rest
  | Undefined :: rest => not_undefined rest
  end.

Definition cookies_of (lastRedirect : HeaderResult) : list (option CookieOptions) :=
  not_undefined (map cookie_of (cookieHeaders_of lastRedirect)).

(** [cookies as CookieOptions[]]: the entries that are what the cast says
    they are. *)
Fixpoint as_CookieOptions (cookies : list (option CookieOptions))
  : list CookieOptions :=
  match cookies with
  | [] => []
  | Some o :: rest => o :: as_CookieOptions rest
  | None :: rest => as_CookieOptions rest
  end.

Definition has_null (cookies : list (option CookieOptions)) : bool :=
  existsb (fun entry => match entry with
                        | None => true
                        | Some _ => false
                        end) cookies.

(** The extraction in the specification's words: go through the headers of
    the final hop in order; a header whose name is [Set-Cookie] in any
    letter case contributes the cookie its value parses to, with the
    fields the parser found, and nothing when its value does not parse. *)
Fixpoint set_cookie_scan (hs : list ResponseHeader) : list Cookie :=
  match hs with
  | [] => []
  | h :: rest =>
      if toLowerCase (rh_name h) =? toLowerCase "Set-Cookie" then
        match Cookie_parse (rh_value h) with
        | Defined parsed =>
            mkCookie (mkCookieOptions (pk_key parsed) (pk_value parsed)
                        (pk_expires parsed) (pk_maxAge parsed) (pk_domain parsed)
                        (pk_path parsed) (pk_secure parsed) (pk_httpOnly parsed)
                        (pk_hostOnly parsed))
            :: set_cookie_scan rest
        | Undefined | Null => set_cookie_scan rest
        end
      else set_cookie_scan rest
  end.

Definition headers_of (lastRedirect : HeaderResult) : list HeaderOptions :=
  map (fun header => mkHeaderOptions (rh_name header) (rh_value header) None)
      (hr_headers lastRedirect).

(** The [ResponseOptions] literal both [return new Response(...)] share. *)
Definition response_options (result : CurlRequestOutput)
           (lastRedirect : HeaderResult) (body : Resp.ustring)
  : Resp.ResponseOptions :=
  {| Resp.ro_code := hr_code lastRedirect;
     Resp.ro_reason := Some (hr_reason lastRedirect);
     Resp.ro_header := Some (headers_of lastRedirect);
     Resp.ro_cookie := Some (as_CookieOptions (cookies_of lastRedirect));
     Resp.ro_body := Some body;
     Resp.ro_stream := None;
     Resp.ro_responseTime := elapsedTime (patch result);
     Resp.ro_status := Some (hr_reason lastRedirect) |}.

(** [new Response({ ..., cookie: cookies as CookieOptions[], ... })].  The
    constructor hands every entry of [cookie] to [new Cookie].  With no
    [null] among them this is the constructor on the literal as typed;
    with one, [new Cookie(null)] is evaluated: its error leaves the
    constructor, and the cookie it gives stands where the [null] stood. *)
Definition new_Response (result : CurlRequestOutput)
           (lastRedirect : HeaderResult) (body : Resp.ustring)
  : JS.result Resp.Response :=
  let response :=
    Resp.Response_new RESPONSE_CODE_REASONS
      (response_options result lastRedirect body) in
  if has_null (cookies_of lastRedirect) then
    of_null <- Cookie_of_null ;;
    Ok (Resp.mkResponse (Resp.body response) (Resp.code response)
          (map (fun entry => match entry with
                             | Some o => Cookie_new o
                             | None => of_null
                             end) (cookies_of lastRedirect))
          (Resp.headers response) (Resp.responseTime response)
          (Resp.status response) (Resp.stream response))
  else Ok response.

Definition is_set (o : option string) : bool :=
  match o with
  | Some s => negb (s =? "")
  | None => false
  end.

(** How the promise of an [async] function settles when its body returns
    or throws. *)
Definition settle {A} (r : JS.result A) : Settled A :=
  match r with
  | Ok a => Resolved a
  | Throw e => Rejected e
  end.

(** [async function fromCurlOutputToResponse(result)]: how the returned
    promise settles. *)
Definition fromCurlOutputToResponse (result : CurlRequestOutput)
  : Settled Resp.Response :=
  match last (headerResults result) with
  | None => Rejected undefined_read
  | Some lastRedirect =>
      if negb (is_set (responseBodyPath result)) then
        settle (new_Response result lastRedirect [])
      else
        match readCurlResponse (or_empty (responseBodyPath result))
                (bodyCompression (patch result)) with
        | Rejected e => Rejected e
        | Resolved bodyResult =>
            if is_set (br_error bodyResult) then
              Rejected (Error (or_empty (br_error bodyResult)))
            else
              settle (new_Response result lastRedirect (br_body bodyResult))
        end
  end.

End Lift.

(** *** Lowering a request to engine options *)

Record CurlBody := mkCurlBody {
  (* mimeType: undefined *)
  cb_method : option string;
  cb_text : option string
}.

Record CurlReq := mkCurlReq {
  cr_headers : list ResponseHeader;
  cr_method : string;
  cr_body : CurlBody;
  cr_authentication : JS.value;
  cr_settingFollowRedirects : string;
  cr_settingRebuildPath : bool;
  cr_settingSendCookies : bool;
  cr_url : string;
  (* cookieJar: { cookies: [] }, cookies: [] *)
  cr_suppressUserAgent : bool
}.

(** An entry of [certificates]; the fields that are not persisted are the
    constants of the source and are left out. *)
Record CertificateEntry := mkCertificateEntry {
  ce_host : string;
  ce_passphrase : string;
  ce_cert : string;
  ce_key : string;
  ce_pfx : string
}.

Section Lower.

(** [String.prototype.toLowerCase] of the runtime. *)
Variable toLowerCase : string -> string.
Variable Settings : Type.
Variable followRedirects : Settings -> bool.
Variable Url_parse : string -> Req.Url.
Variable Url_toString : Req.Url -> string.
Variable formdata_toString : list FormParam -> result string.
Variable urlencoded_toString : list QueryParam -> result string.
Variable JSON_stringify : JS.value -> result string.
Variable QueryParam_parse : string -> list (string * JS.value).

Record CurlRequestOptions := mkCurlRequestOptions {
  requestId : string;
  req : CurlReq;
  finalUrl : string;
  settings : Settings;
  certificates : list CertificateEntry
  (* caCertficatePath: null, socketPath: undefined, authHeader: undefined *)
}.

(** What [sendRequest] may be handed. *)
Inductive RequestLike : Type :=
| ReqString (url : string)
| ReqRequest (r : Req.Request)
| ReqOptions (o : Req.RequestOptions)
| ReqOther.                      (* an object with no [url] property *)

Notation "x <~ m ;; k" := (Req.mbind m (fun x => k))
  (at level 100, m at next level, right associativity, only parsing).

(** The [else if (req instanceof Request || 'url' in req)] branch, once
    [finalReq] is at hand. *)
Definition lower_request (finalReq : Req.Request) (st : Settings)
           (id : string) : Req.M CurlRequestOptions :=
  let settingFollowRedirects := if followRedirects st then "on" else "off" in
  hs <~ Req.read_hlist (Req.headers finalReq) ;;
  b <~ Req.read_body_opt (Req.body finalReq) ;;
  u <~ Req.read_url (Req.url finalReq) ;;
  authentication <~ Req.lift (transformAuthentication (Req.auth finalReq)) ;;
  Req.ret
    {| requestId := if Req.id finalReq =? ""
                    then "pre-request-script-adhoc-req:" +:+ id
                    else Req.id finalReq;
       req := {| cr_headers :=
                   map (fun header => mkResponseHeader (key header) (value header)) hs;
                 cr_method := Req.method finalReq;
                 cr_body :=
                   mkCurlBody
                     (Some (Req.method finalReq))
                     (b' ← b;
                      Some (Body.toString formdata_toString
                              urlencoded_toString JSON_stringify b'));
                 cr_authentication := authentication;
                 cr_settingFollowRedirects := settingFollowRedirects;
                 cr_settingRebuildPath := true;
                 cr_settingSendCookies := true;
                 cr_url := Url_toString u;
                 cr_suppressUserAgent :=
                   (0 <? length
                           (map (fun h =>
                                   String.eqb (toLowerCase (key h)) "user-agent"
                                   && match disabled h with
                                      | Some true => true
                                      | _ => false
                                      end) hs))%nat |};
       finalUrl := Url_toString u;
       settings := st;
       certificates :=
         match Req.certificate finalReq with
         | Some c =>
             [ {| ce_host := or_empty (Req.cert_name c);
                  ce_passphrase := or_empty (Req.cert_passphrase c);
                  ce_cert := or_empty (Req.cert_cert c);
                  ce_key := or_empty (Req.cert_key c);
                  ce_pfx := or_empty (Req.cert_pfx c) |} ]
         | None => []
         end |}.

(** [id] is the value [uuidv4()] returned. *)
Definition fromRequestToCurlOptions (r : RequestLike) (st : Settings)
           (id : string) : Req.M CurlRequestOptions :=
  let settingFollowRedirects := if followRedirects st then "on" else "off" in
  match r with
  | ReqString url =>
      authentication <~
        Req.lift (transformAuthentication (mkAuthJSON "noauth" [])) ;;
      Req.ret
        {| requestId := "pre-request-script-adhoc-str-req:" +:+ id;
           req := {| cr_headers := [];
                     cr_method := "GET";
                     cr_body := mkCurlBody None None;
                     cr_authentication := authentication;
                     cr_settingFollowRedirects := settingFollowRedirects;
                     cr_settingRebuildPath := true;
                     cr_settingSendCookies := true;
                     cr_url := url;
                     cr_suppressUserAgent := false |};
           finalUrl := url;
           settings := st;
           certificates := [] |}
  | ReqRequest finalReq => lower_request finalReq st id
  | ReqOptions o =>
      finalReq <~ Req.Request_new Url_parse JSON_stringify QueryParam_parse o ;;
      lower_request finalReq st id
  | ReqOther =>
      Req.lift
        (Throw (Error "the request type must be: string | Request | RequestOptions."))
  end.

End Lower.

Arguments requestId {Settings} _.
Arguments req {Settings} _.
Arguments finalUrl {Settings} _.
Arguments settings {Settings} _.
Arguments certificates {Settings} _.

(** *** [HttpSendRequest.sendRequest] *)

(** The id a bare URL string is dispatched under. *)
Definition adhoc_id (id : string) : string :=
  "pre-request-script-adhoc-str-req:" +:+ id.


(** The [cancelRequest] closure: it tells the engine to cancel this
    request id and aborts the controller of the call. *)
Record CancelFn := mkCancelFn { cancels : string }.

(** Modelled from the spec: [setCancelRequestFunctionMap] and
    [deleteCancelRequestFunctionMap] of network/cancellation, the
    process-wide map keyed by request id. *)
Definition setCancelRequestFunctionMap (id : string) (fn : CancelFn)
           (m : gmap string CancelFn) : gmap string CancelFn :=
  <[id := fn]> m.

Definition deleteCancelRequestFunctionMap (id : string)
           (m : gmap string CancelFn) : gmap string CancelFn :=
  delete id m.

(** How the expression
    [cancellablePromise({ signal, fn: window.curl.curlRequest(requestOptions) })]
    goes: it throws while being evaluated, or it gives a promise that
    settles later (a transport failure and an abort both reject it). *)
Inductive Dispatched : Type :=
| Throws (err : JsError)
| Settles (s : Settled CurlRequestOutput).

(** The first argument of [cb]: the rejection itself, or a message. *)
Inductive CallbackError : Type :=
| Caught (e : JsError)
| Message (s : string).

(** What a call does that the outside can see, in order. *)
Inductive Event : Type :=
| SetCancel (id : string)
| CurlRequest (id : string)
| DeleteCancel (id : string)
| Callback (error : option CallbackError) (response : option Resp.Response).

Record Run := mkRun {
  registry : gmap string CancelFn;
  store : Req.Store;
  trace : list Event;
  thrown : option JsError          (* an exception that leaves [sendRequest] *)
}.

Section Dispatch.

Variable toLowerCase : string -> string.
Variable Settings : Type.
Variable followRedirects : Settings -> bool.
Variable Url_parse : string -> Req.Url.
Variable Url_toString : Req.Url -> string.
Variable formdata_toString : list FormParam -> result string.
Variable urlencoded_toString : list QueryParam -> result string.
Variable JSON_stringify : JS.value -> result string.
Variable QueryParam_parse : string -> list (string * JS.value).
Variable RESPONSE_CODE_REASONS : Z -> option string.
Variable Cookie_parse : string -> nullable ParsedCookie.
Variable Cookie_of_null : result Cookie.
Variable readCurlResponse : string -> option string -> Settled BodyResult.
Variable curlRequest : CurlRequestOptions Settings -> Dispatched.

(** The [.then(...).then(...).catch(...)] chain on a settled promise: the
    call of [cb] it makes, [cb] being one that returns.  (A [cb] that throws
    when it is handed the response is called once more, by [.catch], which
    the trace does not follow.) *)
Definition on_settled (s : Settled CurlRequestOutput) : Event :=
  match s with
  | Resolved output =>
      match fromCurlOutputToResponse toLowerCase RESPONSE_CODE_REASONS
              Cookie_parse Cookie_of_null readCurlResponse output with
      | Resolved transformedOutput => Callback None (Some transformedOutput)
      | Rejected e => Callback (Some (Caught e)) None
      end
  | Rejected e => Callback (Some (Caught e)) None
  end.

(** [sendRequest(request, cb)] with [this.settings = st], run until the
    call and its promise chain are done.  [id] is the uuid drawn. *)
Definition sendRequest (st : Settings) (request : RequestLike)
           (id : string) (reg : gmap string CancelFn) (sigma : Req.Store) : Run :=
  match fromRequestToCurlOptions toLowerCase Settings followRedirects Url_parse
          Url_toString formdata_toString urlencoded_toString JSON_stringify
          QueryParam_parse request st id sigma with
  | Throw e => mkRun reg sigma [] (Some e)
  | Ok (requestOptions, sigma') =>
      let rid := requestId requestOptions in
      let cancelRequest := mkCancelFn rid in
      let reg1 := setCancelRequestFunctionMap rid cancelRequest reg in
      match curlRequest requestOptions with
      | Settles s =>
          mkRun reg1 sigma' [SetCancel rid; CurlRequest rid; on_settled s] None
      | Throws err =>
          let reg2 := deleteCancelRequestFunctionMap rid reg1 in
          let text :=
            if name err =? "AbortError"
            then "Request was cancelled: " +:+ message err
            else "Something went wrong: " +:+ message err in
          mkRun reg2 sigma'
                [SetCancel rid; CurlRequest rid; DeleteCancel rid;
                 Callback (Some (Message text)) None]
                None
      end
  end.

End Dispatch.

End Bridge.

(** ** More of Request and RequestBody (req-resp.ts) *)

Module Headers.
Import Req.

(** The [options] of [getHeaders]. *)
Record GetHeadersOptions := mkGetHeadersOptions {
  gh_ignoreCase : bool;
  gh_enabled : bool;
  gh_multiValue : bool;
  gh_sanitizeKeys : bool
}.

(** [options?.flag] as a condition. *)
Definition flag (f : GetHeadersOptions -> bool) (options : option GetHeadersOptions)
  : bool :=
  match options with
  | Some o => f o
  | None => false
  end.

(** [headerMap]: a [Map<string, string[]>], its entries in insertion order. *)
Definition HeaderMap := list (string * list string).

Fixpoint map_get (m : HeaderMap) (k : string) : option (list string) :=
  match m with
  | [] => None
  | (k', vs) :: rest => if k' =? k then Some vs else map_get rest k
  end.

Definition map_has (m : HeaderMap) (k : string) : bool :=
  match map_get m k with
  | Some _ => true
  | None => false
  end.

(** [Map.prototype.set]: an existing key keeps its place. *)
Fixpoint map_set (m : HeaderMap) (k : string) (vs : list string) : HeaderMap :=
  match m with
  | [] => [ (k, vs) ]
  | (k', vs') :: rest =>
      if k' =? k then (k, vs) :: rest else (k', vs') :: map_set rest k vs
  end.

Section Locale.

(** [String.prototype.toLocaleLowerCase] of the runtime, which follows the
    rules of the host's locale. *)
Variable toLocaleLowerCase : string -> string.

(** The three tests before the early [return] of the callback. *)
Definition included (options : option GetHeadersOptions) (header : Header) : bool :=
  let enabled :=
    if flag gh_enabled options
    then negb (match disabled header with Some true => true | _ => false end)
    else true in
  let sanitized :=
    if flag gh_sanitizeKeys options then negb (value header =? "") else true in
  let hasName := negb (key header =? "") in
  negb (negb enabled || negb sanitized || negb hasName).

(** [header.key = options?.ignoreCase ? header.key?.toLocaleLowerCase() : header.key] *)
Definition recase (options : option GetHeadersOptions) (header : Header) : Header :=
  mkHeader (if flag gh_ignoreCase options
            then toLocaleLowerCase (key header) else key header)
           (value header) (disabled header).

(** The callback of [this.headers.each], run over the list in order: the
    headers as the callback leaves them, and the map. *)
Fixpoint each_header (options : option GetHeadersOptions) (hs : list Header)
         (headerMap : HeaderMap) : list Header * HeaderMap :=
  match hs with
  | [] => ([], headerMap)
  | header :: rest =>
      if included options header then
        let header' := recase options header in
        let headerMap' :=
          if map_has headerMap (key header') then
            let existingHeader :=
              match map_get headerMap (key header') with
              | Some vs => vs
              | None => []
              end in
            map_set headerMap (key header') (existingHeader ++ [ value header' ])
          else
            map_set headerMap (key header') [ value header' ] in
        let (rest', m) := each_header options rest headerMap' in
        (header' :: rest', m)
      else
        let (rest', m) := each_header options rest headerMap in
        (header :: rest', m)
  end.

(** The header as the callback of [getHeaders] leaves it. *)
Definition settled_header (options : option GetHeadersOptions) (h : Header) : Header :=
  if included options h then recase options h else h.

(** The values [getHeaders] is to list under [k]: those of the included
    headers whose key, in the case asked for, is [k], in order. *)
Definition values_under_key (options : option GetHeadersOptions)
           (hs : list Header) (k : string) : list string :=
  map value
      (List.filter (fun h => included options h && (key (recase options h) =? k)) hs).

(** The map after the callback has entered one value. *)
Definition put (headerMap : HeaderMap) (k v : string) : HeaderMap :=
  if map_has headerMap k then
    map_set headerMap k (match map_get headerMap k with Some vs => vs | None => [] end
                         ++ [ v ])
  else map_set headerMap k [ v ].

(** [getHeaders(options)]: the object's properties, one per map entry; the
    headers of the request keep the keys the callback assigned. *)
Definition getHeaders (this : Request) (options : option GetHeadersOptions)
  : M HeaderMap :=
  hs <~ read_hlist (headers this) ;;
  let (hs', headerMap) := each_header options hs [] in
  _ <~ write_hlist (headers this) hs' ;;
  ret headerMap.

(** What [removeHeader] is asked to remove: a string, or an object with
    its [key] and whether it has a [name] property. *)
Inductive ToRemove : Type :=
| RemoveKey (s : string)
| RemoveObject (has_name : bool) (k : string).

(** The message ['type of the "toRemove" must be: string | Header']. *)
Definition toRemove_type_error : JsError :=
  let quote := String (ascii_of_nat 34) EmptyString in
  Error ("type of the " +:+ quote +:+ "toRemove" +:+ quote
         +:+ " must be: string | Header").

(** [a !== b], under [toLocaleLowerCase] when [ignoreCase]. *)
Definition differs (ignoreCase : bool) (a b : string) : bool :=
  if ignoreCase
  then negb (toLocaleLowerCase a =? toLocaleLowerCase b)
  else negb (a =? b).

(** The callback of [this.headers.filter] in [removeHeader]. *)
Definition stays (toRemove : ToRemove) (ignoreCase : bool) (header : Header)
  : result bool :=
  if key header =? "" then Ok false
  else
    match toRemove with
    | RemoveKey s => Ok (differs ignoreCase (key header) s)
    | RemoveObject true k =>
        if k =? "" then Ok false else Ok (differs ignoreCase (key header) k)
    | RemoveObject false _ => Throw toRemove_type_error
    end.

(** [filter] with a callback that may throw. *)
Fixpoint filter_headers (f : Header -> result bool) (hs : list Header)
  : result (list Header) :=
  match hs with
  | [] => Ok []
  | header :: rest =>
      b <- f header ;;
      rest' <- filter_headers f rest ;;
      Ok (if b then header :: rest' else rest')
  end.

Definition with_headers (this : Request) (hl : loc) : Request :=
  {| id := id this; url := url this; method := method this;
     headers := hl; body := body this; auth := auth this;
     proxy := proxy this; certificate := certificate this |}.

(** [removeHeader(toRemove, options)]: [this.headers] becomes a new list. *)
Definition removeHeader (this : Request) (toRemove : ToRemove)
           (ignoreCase : bool) : M Request :=
  hs <~ read_hlist (headers this) ;;
  filteredHeaders <~ lift (filter_headers (stays toRemove ignoreCase) hs) ;;
  hl <~ alloc_hlist filteredHeaders ;;
  ret (with_headers this hl).

End Locale.

(** What [addHeader] may be handed: a [Header], an object with [key] and
    [value], or anything else. *)
Inductive HeaderLike : Type :=
| IsHeader (h : Header)
| KeyValue (o : HeaderOptions)
| NotAHeader.

Definition addHeaderLike (this : Request) (header : HeaderLike) : M unit :=
  match header with
  | IsHeader headerInstance => addHeader this headerInstance
  | KeyValue o => addHeader this (Header_new o)
  | NotAHeader => lift (Throw (Error "header must be Header | object"))
  end.

End Headers.

Module Updates.
Import Body Req.

Section Update.

Variable Url_parse : string -> Url.
Variable JSON_stringify : JS.value -> result string.
Variable QueryParam_parse : string -> list (string * JS.value).

(** The array branch of [RequestBody.update]:
    [{ key: entry.key, value: JSON.stringify(entry.value) }]. *)
Fixpoint stringify_values (l : list (string * string)) : result (list QueryParam) :=
  match l with
  | [] => Ok []
  | (k, v) :: rest =>
      s <- JSON_stringify (VStr v) ;;
      tl <- stringify_values rest ;;
      Ok (mkQueryParam k s :: tl)
  end.

(** [RequestBody.update(opts)]: the body as the call leaves it, and the
    error when [JSON.stringify] threw.  The five plain fields are assigned
    before [urlencoded] is computed. *)
Definition RequestBody_update (this : RequestBody) (opts : RequestBodyOptions)
  : RequestBody * option JsError :=
  let fd :=
    match opt_formdata opts with
    | Some l => Some (map (fun kv => mkFormParam (fst kv) (snd kv)) l)
    | None => None
    end in
  let assigned ue :=
    {| mode := opt_mode opts;
       file := opt_file opts;
       formdata := fd;
       graphql := opt_graphql opts;
       raw := opt_raw opts;
       urlencoded := ue |} in
  let computed :=
    match opt_urlencoded opts with
    | Some (inl s) =>
        if s =? "" then Ok None
        else l <- stringify_entries JSON_stringify (QueryParam_parse s) ;; Ok (Some l)
    | Some (inr l) => l' <- stringify_values l ;; Ok (Some l')
    | None => Ok None
    end in
  match computed with
  | Ok ue => (assigned ue, None)
  | Throw e => (assigned (urlencoded this), Some e)
  end.

(** [Request.update(options)]: the request and the store as the call leaves
    them, and the error when building the body threw.  [url], [method] and
    [headers] are assigned before the body is built. *)
Definition Request_update (this : Request) (options : RequestOptions)
           (sigma : Store) : Request * Store * option JsError :=
  let '(u, s1) :=
    match opt_url options with
    | inl s =>
        let l := fresh (dom (urls sigma)) in
        (l, mkStore (<[l := Url_parse s]> (urls sigma)) (hlists sigma) (bodies sigma))
    | inr l => (l, sigma)
    end in
  let m := match opt_method options with
           | Some m => if m =? "" then "GET" else m
           | None => "GET"
           end in
  let hs := match opt_header options with
            | Some (inl arr) => map Header_new arr
            | Some (inr entries) =>
                map (fun e => Header_new (mkHeaderOptions (fst e) (snd e) None)) entries
            | None => []
            end in
  let hl := fresh (dom (hlists s1)) in
  let s2 := mkStore (urls s1) (<[hl := hs]> (hlists s1)) (bodies s1) in
  let started :=
    {| id := id this; url := u; method := m; headers := hl;
       body := body this; auth := auth this; proxy := proxy this;
       certificate := certificate this |} in
  let finished b :=
    {| id := id this; url := u; method := m; headers := hl;
       body := b;
       auth := match opt_auth options with
               | Some a => a
               | None => Auth.mkAuthJSON "noauth" []
               end;
       proxy := opt_proxy options;
       certificate := opt_certificate options |} in
  match opt_body options with
  | Some bo =>
      match RequestBody_new JSON_stringify QueryParam_parse bo with
      | Ok rb =>
          let l := fresh (dom (bodies s2)) in
          (finished (Some l),
           mkStore (urls s2) (hlists s2) (<[l := rb]> (bodies s2)), None)
      | Throw e => (started, s2, Some e)
      end
  | None => (finished None, s2, None)
  end.

End Update.

End Updates.

(** ** More of Response (req-resp.ts) *)

Module Content.
Import Resp.

Record ResponseContentInfo := mkResponseContentInfo {
  mimeType : string;
  mimeFormat : string;
  charset : string;
  fileExtension : string;
  fileName : string;
  contentType : string
}.

Section Info.

(** [this.headers.get(key)?.valueOf()] of ./headers: the value found under
    the key, if any. *)
Variable HeaderList_get : list Header -> string -> option string.

Definition contentInfo (r : Response) : ResponseContentInfo :=
  let contentType := HeaderList_get (headers r) "Content-Type" in
  let fileExtension := "" in
  (* fileName is '' and so gets 'response' and the dot and extension *)
  let fileName := "response" +:+ ("." +:+ fileExtension) in
  {| mimeType := "";
     mimeFormat := "";
     charset := "";
     fileExtension := fileExtension;
     fileName := fileName;
     contentType := match contentType with
                    | Some v => if v =? "" then "text/plain" else v
                    | None => "text/plain"
                    end |}.

(** [dataURI()]: an [ArrayBuffer] is truthy whatever its length, a string
    when it is not empty. *)
Definition dataURI (r : Response) : result string :=
  let contentInfo := contentInfo r in
  let bodyInBase64 :=
    match stream r with
    | Some _ => true
    | None => match body r with [] => false | _ :: _ => true end
    end in
  if negb bodyInBase64 then
    Throw (Error "dataURI() failed as response body is not defined")
  else
    Ok ("data:" +:+ contentType contentInfo +:+ ";baseg4, <base64-encoded-body>").

End Info.

End Content.

(** * Properties *)

(** ** The auth transform table *)

Module AuthFacts.
Import Auth.

(** A [type] outside a [case] list fails every comparison of the switch. *)
Ltac skip_cases H :=
  repeat match goal with
         | |- context [ String.eqb ?t ?s ] =>
             destruct (String.eqb_spec t s) as [->|_];
             [ exfalso; apply H; simpl; tauto | ]
         end.

Lemma findValueInObj_shape targetKey kvs :
  findValueInObj targetKey kvs = VStr ""
  \/ findValueInObj targetKey kvs = VUndefined
  \/ exists kv, findValueInObj targetKey kvs = kv_object kv
                /\ kv_key kv = targetKey /\ kv_value kv <> "".
Proof.
  destruct kvs as [l|]; simpl; [|now left].
  destruct (List.find _ l) as [kv|] eqn:Hfind; [|now right; left].
  right; right. exists kv. split; [reflexivity|].
  apply List.find_some in Hfind as [_ Htruthy].
  destruct (String.eqb_spec (kv_key kv) targetKey) as [Hk|Hk]; simpl in Htruthy.
  - split; [exact Hk|]. intros Hv. rewrite Hv in Htruthy. discriminate.
  - discriminate.
Qed.

(** Whatever the scheme array holds, a field filled through
    [findValueInObj || ''] is the empty string or a whole [{key, value}]
    entry: it is never the non-empty string the entry carries. *)
Lemma filled_field_never_a_value targetKey kvs c s :
  jor (findValueInObj targetKey kvs) (VStr "") <> VStr (String c s).
Proof.
  destruct (findValueInObj_shape targetKey kvs) as [H|[H|[kv [H _]]]];
    rewrite H; unfold jor; simpl; discriminate.
Qed.

(** The OAuth 1 case of [transformAuth] does not read [oldAuth]. *)
Lemma oauth1_ignores_input schemes :
  transformAuthentication (mkAuthJSON "oauth1" schemes)
  = Ok (transformAuth AUTH_OAUTH_1 None).
Proof. reflexivity. Qed.

(** C1, at the input
    [{ type: 'basic', basic: [{key:'username', value:'user'},
                              {key:'password', value:'pass'}] }]:
    converting it to engine form gives an object whose [username] and
    [password] are the whole [{key, value}] entries of the array, not the
    strings ['user'] and ['pass'] that the input set. *)
Example basic_fields_not_reproduced :
  let input := mkAuthJSON "basic"
                 [ ("basic", [ mkKV "username" "user"; mkKV "password" "pass" ]) ] in
  transformAuthentication input
  = Ok (VObj [ ("type", VStr "basic");
               ("useISO88591", VBool false);
               ("disabled", VBool false);
               ("username", VObj [ ("key", VStr "username"); ("value", VStr "user") ]);
               ("password", VObj [ ("key", VStr "password"); ("value", VStr "pass") ]) ])
  /\ (forall v, transformAuthentication input = Ok v ->
                get v "username" <> VStr "user" /\ get v "password" <> VStr "pass").
Proof.
  split; [reflexivity|].
  intros v Hv. vm_compute in Hv. injection Hv as <-. split; discriminate.
Qed.

(** C2, counterexample: [transformAuth] has no [case] for ['bogus'] and
    returns the object [{ type: 'bogus' }]. *)
Example transformAuth_unknown_type_returns :
  ~ In "bogus" engine_types
  /\ transformAuth "bogus" None = VObj [ ("type", VStr "bogus") ]
  /\ transformAuth "bogus" (Some [ ("username", VStr "u") ])
     = VObj [ ("type", VStr "bogus") ].
Proof.
  split; [|split; reflexivity].
  unfold engine_types, AUTH_NONE, AUTH_BASIC, AUTH_DIGEST, AUTH_NTLM, AUTH_OAUTH_1,
    AUTH_OAUTH_2, AUTH_AWS_IAM, AUTH_HAWK, AUTH_ASAP.
  simpl. intros H. repeat destruct H as [H|H]; try discriminate H. exact H.
Qed.

(** C2, as amended: for a [type] string with no [case] at the boundary,
    [transformAuthentication] throws "unknown auth type: <type>";
    [transformToPreRequestAuth], when the string is not empty, throws
    "unknown auth type or unsupported auth type: <type>"; and
    [transformAuth] does not fail but returns [{ type }]. *)
Theorem unknown_type_at_each_boundary (t : string) :
  (~ In t sdk_types ->
   forall schemes,
     transformAuthentication (mkAuthJSON t schemes)
     = Throw (Error ("unknown auth type: " +:+ t)))
  /\ (~ In t sdk_types -> t <> "" ->
      forall o, field o "type" = VStr t ->
        transformToPreRequestAuth (VObj o)
        = Throw (Error ("unknown auth type or unsupported auth type: " +:+ t)))
  /\ (~ In t engine_types ->
      forall oldAuth, transformAuth t oldAuth = VObj [ ("type", VStr t) ]).
Proof.
  split; [|split].
  - intros H schemes. unfold transformAuthentication. cbn [auth_type].
    skip_cases H. reflexivity.
  - intros H Hne o Ho. unfold transformToPreRequestAuth.
    cbn [get truthy negb orb]. rewrite Ho. cbn [truthy is_str to_string].
    destruct (String.eqb_spec t "") as [->|_]; [contradiction|].
    cbn [negb].
    skip_cases H. reflexivity.
  - intros H oldAuth. unfold transformAuth.
    unfold engine_types, AUTH_NONE, AUTH_BASIC, AUTH_DIGEST, AUTH_NTLM,
      AUTH_OAUTH_1, AUTH_OAUTH_2, AUTH_AWS_IAM, AUTH_HAWK, AUTH_ASAP in *.
    skip_cases H. reflexivity.
Qed.

(** The three boundaries at the type ['bogus']. *)
Lemma unknown_type_at_each_boundary_witness :
  transformAuthentication (mkAuthJSON "bogus" [])
  = Throw (Error "unknown auth type: bogus")
  /\ transformToPreRequestAuth (VObj [ ("type", VStr "bogus") ])
     = Throw (Error "unknown auth type or unsupported auth type: bogus")
  /\ transformAuth "bogus" None = VObj [ ("type", VStr "bogus") ].
Proof.
  assert (Hsdk : ~ In "bogus" sdk_types).
  { simpl. intros H. repeat destruct H as [H|H]; try discriminate H. exact H. }
  assert (Heng : ~ In "bogus" engine_types).
  { unfold engine_types, AUTH_NONE, AUTH_BASIC, AUTH_DIGEST, AUTH_NTLM,
      AUTH_OAUTH_1, AUTH_OAUTH_2, AUTH_AWS_IAM, AUTH_HAWK, AUTH_ASAP.
    simpl. intros H. repeat destruct H as [H|H]; try discriminate H. exact H. }
  destruct (unknown_type_at_each_boundary "bogus") as [H1 [H2 H3]].
  split; [|split].
  - exact (H1 Hsdk []).
  - refine (H2 Hsdk _ [ ("type", VStr "bogus") ] eq_refl). discriminate.
  - exact (H3 Heng None).
Defined.

(** Numbers in a template literal: plain digits below 10^21, exponent form
    from there on, and the nearest double beyond 2^53. *)
Lemma Number_toString_forms :
  to_string (VNum 401) = "401"
  /\ to_string (VNum (-7)) = "-7"
  /\ to_string (VNum (2 ^ 53 + 1)) = "9007199254740992"
  /\ to_string (VNum (10 ^ 21)) = "1e+21"
  /\ to_string (VNum (2 ^ 70)) = "1.1805916207174113e+21".
Proof. repeat split; vm_compute; reflexivity. Qed.

(** C10: [transformToPreRequestAuth] returns the object [{ type: 'noauth' }],
    and does not fail, on [null], on [undefined] and on every value whose
    [type] is absent or falsy; a call that does throw had a truthy [type],
    which was either ['netrc'] or a value no [case] names; and a type
    string that is not empty and that no [case] names does make the call
    throw, with the string in the message. *)
Theorem falsy_auth_is_noauth (auth : JS.value) :
  (truthy auth = false \/ truthy (get auth "type") = false ->
   transformToPreRequestAuth auth = Ok (VObj [ ("type", VStr "noauth") ]))
  /\ (forall e, transformToPreRequestAuth auth = Throw e ->
        truthy auth = true
        /\ truthy (get auth "type") = true
        /\ (get auth "type" = VStr "netrc"
            \/ (forall s, In s sdk_types -> get auth "type" <> VStr s)
               /\ e = Error ("unknown auth type or unsupported auth type: "
                             +:+ to_string (get auth "type"))))
  /\ (forall t : string,
        get auth "type" = VStr t ->
        t <> "" ->
        ~ In t [ "noauth"; "basic"; "digest"; "ntlm"; "oauth1"; "oauth2";
                 "awsv4"; "hawk"; "asap"; "netrc" ] ->
        transformToPreRequestAuth auth
        = Throw (Error ("unknown auth type or unsupported auth type: " +:+ t))).
Proof.
  unfold transformToPreRequestAuth. split; [|split].
  - intros [H|H]; rewrite H; [reflexivity|].
    now rewrite orb_true_r.
  - intros e.
    destruct (truthy auth); [|discriminate].
    destruct (truthy (get auth "type")); [|discriminate].
    cbn [negb orb].
    destruct (get auth "type") as [| |b|n|s|o|l]; cbn [is_str];
      try (intros [= <-]; repeat split; right; split;
           [intros s' _; discriminate | reflexivity]).
    repeat match goal with
           | |- context [ String.eqb s ?k ] =>
               destruct (String.eqb_spec s k) as [->|?]; [try discriminate|]
           end.
    + intros _. repeat split. now left.
    + intros [= <-]. repeat split. right. split; [|reflexivity].
      intros s' Hin [= ->]. simpl in Hin.
      repeat destruct Hin as [Hin|Hin]; try (symmetry in Hin; contradiction).
      exact Hin.
  - intros t Ht Hne Hin.
    assert (Hauth : truthy auth = true).
    { destruct auth; try discriminate Ht; reflexivity. }
    rewrite Hauth, Ht. cbn [truthy is_str to_string negb orb].
    destruct (String.eqb_spec t "") as [->|_]; [contradiction|]. cbn [negb].
    repeat match goal with
           | |- context [ String.eqb t ?k ] =>
               destruct (String.eqb_spec t k) as [->|?];
               [exfalso; apply Hin; simpl; tauto|]
           end.
    reflexivity.
Qed.

(** [null], [undefined], an object without [type], an empty [type]; and the
    truthy type ['bogus'], which throws. *)
Lemma falsy_auth_is_noauth_witness :
  transformToPreRequestAuth VNull = Ok (VObj [ ("type", VStr "noauth") ])
  /\ transformToPreRequestAuth VUndefined = Ok (VObj [ ("type", VStr "noauth") ])
  /\ transformToPreRequestAuth (VObj [ ("username", VStr "u") ])
     = Ok (VObj [ ("type", VStr "noauth") ])
  /\ transformToPreRequestAuth (VObj [ ("type", VStr "") ])
     = Ok (VObj [ ("type", VStr "noauth") ])
  /\ transformToPreRequestAuth (VObj [ ("type", VStr "bogus") ])
     = Throw (Error "unknown auth type or unsupported auth type: bogus").
Proof.
  split; [|split; [|split; [|split]]].
  - apply (proj1 (falsy_auth_is_noauth VNull)). left. reflexivity.
  - apply (proj1 (falsy_auth_is_noauth VUndefined)). left. reflexivity.
  - apply (proj1 (falsy_auth_is_noauth (VObj [ ("username", VStr "u") ]))).
    right. reflexivity.
  - apply (proj1 (falsy_auth_is_noauth (VObj [ ("type", VStr "") ]))).
    right. reflexivity.
  - apply (proj2 (proj2 (falsy_auth_is_noauth (VObj [ ("type", VStr "bogus") ])))
             "bogus").
    + reflexivity.
    + discriminate.
    + simpl. intros H. repeat destruct H as [H|H]; try discriminate H. exact H.
Defined.

End AuthFacts.

(** ** RequestBody *)

Module BodyFacts.
Import Body.

Section Policies.

Variable formdata_toString : list FormParam -> result string.
Variable urlencoded_toString : list QueryParam -> result string.
Variable JSON_stringify : JS.value -> result string.

Local Abbreviation toString :=
  (Body.toString formdata_toString urlencoded_toString JSON_stringify).
Local Abbreviation toString_try :=
  (Body.toString_try formdata_toString urlencoded_toString JSON_stringify).

Lemma mode_is_false (b : RequestBody) (s : string) :
  mode b <> Some s -> mode_is (mode b) s = false.
Proof.
  unfold mode_is. destruct (mode b) as [m|]; [|reflexivity].
  intros H. destruct (String.eqb_spec m s) as [->|_]; [contradiction|reflexivity].
Qed.

Lemma mode_is_true (b : RequestBody) (s : string) :
  mode b = Some s -> mode_is (mode b) s = true.
Proof. intros ->. simpl. apply String.eqb_refl. Qed.

(** On a recognized mode both operations look at that mode's payload only. *)
Lemma recognized_mode_dispatch (b : RequestBody) :
  (mode b = Some "formdata" ->
   isEmpty b = Ok (is_null (formdata b))
   /\ toString_try b = match formdata b with
                       | Some l => formdata_toString l
                       | None => Ok ""
                       end)
  /\ (mode b = Some "urlencoded" ->
      isEmpty b = Ok (is_null (urlencoded b))
      /\ toString_try b = match urlencoded b with
                          | Some l => urlencoded_toString l
                          | None => Ok ""
                          end)
  /\ (mode b = Some "raw" ->
      isEmpty b = Ok (is_null (raw b))
      /\ toString b = match raw b with Some s => s | None => "" end)
  /\ (mode b = Some "file" ->
      isEmpty b = Ok (is_null (file b))
      /\ toString b = match file b with Some s => s | None => "" end)
  /\ (mode b = Some "graphql" ->
      isEmpty b = Ok (is_null (graphql b))
      /\ toString_try b = match graphql b with
                          | Some g => JSON_stringify g
                          | None => Ok ""
                          end).
Proof.
  unfold Body.toString, Body.toString_try, isEmpty.
  repeat match goal with |- _ /\ _ => split end;
    intros H; rewrite H; simpl; (split; [reflexivity|]); try reflexivity.
  - now destruct (raw b).
  - now destruct (file b).
Qed.


End Policies.


End BodyFacts.

(** ** Response *)

Module RespFacts.
Import Resp.

(** The constructor reads [status] off the table, whatever the options
    supply as [status] or [reason]. *)
Lemma Response_new_status table (options : ResponseOptions) :
  status (Response_new table options) = table (ro_code options).
Proof. reflexivity. Qed.

(** C4, at the inputs [{ code: 200, reason: 'Fine', status: 'Fine', ... }] and
    [{ code: 200, reason: 'Nope', status: 'Nope', ... }]: whatever the
    status-code table holds, both responses get the table's entry for 200 as
    [status], so the supplied phrase is not what [status] equals. *)
Theorem supplied_reason_is_not_used (table : Z -> option string) :
  let with_phrase p := mkResponseOptions 200 (Some p) None None None None 12 (Some p) in
  status (Response_new table (with_phrase "Fine")) = table 200%Z
  /\ status (Response_new table (with_phrase "Nope")) = table 200%Z
  /\ ~ (status (Response_new table (with_phrase "Fine")) = Some "Fine"
        /\ status (Response_new table (with_phrase "Nope")) = Some "Nope").
Proof.
  cbv zeta. rewrite !Response_new_status. cbn [ro_code].
  split; [reflexivity|split; [reflexivity|]].
  intros [H1 H2]. rewrite H1 in H2. discriminate.
Qed.

Section JsonFacts.

Variable Reviver : Type.
Variable JSON_parse : ustring -> option Reviver -> result JS.value.

Local Abbreviation json := (Resp.json Reviver JSON_parse).
Local Abbreviation parse_or_wrap := (Resp.parse_or_wrap Reviver JSON_parse).
Local Abbreviation json_by_marks := (Resp.json_by_marks Reviver JSON_parse).

(** [findBOM] finds each byte-order mark, at its length. *)
Lemma findBOM_mark (bom rest : ustring) :
  In bom byte_order_marks -> findBOM (bom ++ rest)%list = List.length bom.
Proof.
  unfold byte_order_marks. simpl.
  intros [<-|[<-|[<-|[<-|[]]]]]; reflexivity.
Qed.

Lemma slice_mark (bom rest : ustring) :
  slice (List.length bom) (bom ++ rest)%list = rest.
Proof.
  unfold slice. rewrite skipn_app, Nat.sub_diag, skipn_all. reflexivity.
Qed.

(** On a body that starts with a byte-order mark, [json] with
    [strict = true] throws the BOM error and hands nothing to [JSON.parse];
    with [strict] false or omitted it parses the body without the mark. *)
Lemma json_on_marked_body (r : Response) (bom rest : ustring)
      (reviver : option Reviver) :
  In bom byte_order_marks ->
  body r = (bom ++ rest)%list ->
  json r reviver (Some true)
  = ([], Throw (Error "byte order mark (BOM) is found while strict=true"))
  /\ json r reviver (Some false) = ([rest], parse_or_wrap rest reviver)
  /\ json r reviver None = ([rest], parse_or_wrap rest reviver).
Proof.
  intros Hbom Hbody.
  assert (Hpos : (0 <? findBOM (bom ++ rest)%list)%nat = true).
  { rewrite (findBOM_mark _ _ Hbom). unfold byte_order_marks in Hbom. simpl in Hbom.
    destruct Hbom as [<-|[<-|[<-|[<-|[]]]]]; reflexivity. }
  unfold Resp.json, text. rewrite Hbody, Hpos.
  rewrite (findBOM_mark _ _ Hbom), slice_mark.
  split; [reflexivity|split; reflexivity].
Qed.

(** Unless the body begins with the code unit 0xBBBF, [json] does what the
    specification says of byte-order marks. *)
Lemma json_follows_marks (r : Response) (reviver : option Reviver)
      (strict : option bool) :
  code_is (body r) 0 0xBBBF = false ->
  json r reviver strict = json_by_marks r reviver strict.
Proof.
  unfold Resp.json, Resp.json_by_marks, findBOM, text, byte_order_marks.
  destruct (body r) as [|a [|b [|c rest]]];
    cbn [code_is nth_error first_mark after orb andb];
    intros Hodd; rewrite ?Hodd; cbn [orb andb];
    repeat match goal with
           | |- context [ (?x =? ?y)%Z ] =>
               destruct (Z.eqb_spec x y); subst; try discriminate;
               cbn [orb andb Nat.ltb Nat.leb slice skipn]
           end;
    reflexivity.
Qed.

(** C7, at the body made of the code unit 0xBBBF (the Hangul syllable
    U+BBBF) and the digit 1.  The body begins with none of the byte-order
    marks and is no JSON text, so [json] should fail with the wrapped parse
    error, strict or not.  The code takes 0xBBBF for a mark: under
    [strict] it throws the BOM error without parsing, and otherwise it
    hands [JSON.parse] the digit alone, whose outcome it returns. *)
Theorem json_strips_a_non_mark (reviver : option Reviver) :
  let r := mkResponse [0xBBBF; 49]%Z 200 [] [] 12 (Some "OK") None in
  first_mark byte_order_marks (body r) = None
  /\ json_by_marks r reviver (Some true)
     = ([body r],
        match JSON_parse (body r) reviver with
        | Ok v => Ok v
        | Throw e => Throw (Error ("failed to get json of body: " +:+ message e))
        end)
  /\ json r reviver (Some true)
     = ([], Throw (Error "byte order mark (BOM) is found while strict=true"))
  /\ (forall strict, strict <> Some true ->
      json r reviver strict
      = ([[49%Z]],
         match JSON_parse [49%Z] reviver with
         | Ok v => Ok v
         | Throw e => Throw (Error ("failed to get json of body: " +:+ message e))
         end)).
Proof.
  cbv zeta. split; [reflexivity|]. split; [reflexivity|]. split; [reflexivity|].
  intros [[|]|] Hstrict; [contradiction|reflexivity|reflexivity].
Qed.

End JsonFacts.

(** A body made of the UTF-8 mark and the digit 1, with a parser that
    accepts the digit. *)
Lemma json_follows_marks_example :
  let parse := fun (s : ustring) (_ : option unit) =>
                 match s with
                 | [49%Z] => Ok (VNum 1)
                 | _ => Throw (mkError "SyntaxError" "Unexpected token")
                 end in
  let r := mkResponse [0xEF; 0xBB; 0xBF; 49]%Z 200 [] [] 12 (Some "OK") None in
  Resp.json unit parse r None (Some true)
  = ([], Throw (Error "byte order mark (BOM) is found while strict=true"))
  /\ Resp.json unit parse r None (Some false) = ([[49%Z]], Ok (VNum 1)).
Proof.
  cbv zeta. split.
  - rewrite json_follows_marks by reflexivity. reflexivity.
  - rewrite json_follows_marks by reflexivity. reflexivity.
Qed.

End RespFacts.

(** ** Lifting an engine result *)

Module LiftFacts.
Import Bridge.

Section Lifted.

Variable toLowerCase : string -> string.
Variable RESPONSE_CODE_REASONS : Z -> option string.
Variable Cookie_parse : string -> nullable ParsedCookie.
Variable Cookie_of_null : result Cookie.
Variable readCurlResponse : string -> option string -> Settled BodyResult.

Local Abbreviation fromCurlOutputToResponse :=
  (Bridge.fromCurlOutputToResponse toLowerCase RESPONSE_CODE_REASONS Cookie_parse
     Cookie_of_null readCurlResponse).
Local Abbreviation cookies_of := (Bridge.cookies_of toLowerCase Cookie_parse).
Local Abbreviation set_cookie_scan := (Bridge.set_cookie_scan toLowerCase Cookie_parse).
Local Abbreviation response_options := (Bridge.response_options toLowerCase Cookie_parse).
Local Abbreviation new_Response :=
  (Bridge.new_Response toLowerCase RESPONSE_CODE_REASONS Cookie_parse Cookie_of_null).

(** The filter / map / filter pipeline of the source, read as the typed
    array it is cast to, computes the scan. *)
Lemma cookies_of_scan (lastRedirect : HeaderResult) :
  toLowerCase "Set-Cookie" = "set-cookie" ->
  map Cookie_new (as_CookieOptions (cookies_of lastRedirect))
  = set_cookie_scan (hr_headers lastRedirect).
Proof.
  intros Hlower. unfold Bridge.cookies_of, cookieHeaders_of.
  induction (hr_headers lastRedirect) as [|h rest IH]; [reflexivity|].
  rewrite filter_cons. cbn [Bridge.set_cookie_scan]. rewrite Hlower.
  destruct (String.eqb_spec (toLowerCase (rh_name h)) "set-cookie") as [Heq|Hne].
  - rewrite decide_True by exact Heq. cbn [map not_undefined].
    unfold cookie_of at 1.
    destruct (Cookie_parse (rh_value h));
      cbn [not_undefined as_CookieOptions map]; now rewrite IH.
  - rewrite decide_False by exact Hne. exact IH.
Qed.

(** Without a [null] answer the array holds no [null]. *)
Lemma cookies_without_null (lastRedirect : HeaderResult) :
  (forall h, In h (hr_headers lastRedirect) ->
             toLowerCase (rh_name h) = "set-cookie" ->
             Cookie_parse (rh_value h) <> Null) ->
  has_null (cookies_of lastRedirect) = false.
Proof.
  unfold Bridge.cookies_of, cookieHeaders_of.
  induction (hr_headers lastRedirect) as [|h rest IH]; intros Hnull; [reflexivity|].
  rewrite filter_cons.
  destruct (decide (toLowerCase (rh_name h) = "set-cookie")) as [Heq|Hne].
  - cbn [map not_undefined]. unfold cookie_of at 1.
    pose proof (Hnull h (or_introl eq_refl) Heq) as Hh.
    destruct (Cookie_parse (rh_value h)); [| |contradiction];
      cbn [not_undefined has_null existsb orb];
      apply IH; intros h' Hin; apply Hnull; now right.
  - apply IH. intros h' Hin. apply Hnull. now right.
Qed.

(** Then [new Response] is the constructor on the literal as typed. *)
Lemma new_Response_typed (result : CurlRequestOutput)
      (lastRedirect : HeaderResult) (body : Resp.ustring) :
  has_null (cookies_of lastRedirect) = false ->
  new_Response result lastRedirect body
  = Ok (Resp.Response_new RESPONSE_CODE_REASONS
          (response_options result lastRedirect body)).
Proof. unfold Bridge.new_Response. now intros ->. Qed.

(** Whatever the cookies, a response that is built has the hop's code and
    headers. *)
Lemma new_Response_code_headers (result : CurlRequestOutput)
      (lastRedirect : HeaderResult) (body : Resp.ustring) (response : Resp.Response) :
  new_Response result lastRedirect body = Ok response ->
  Resp.code response = hr_code lastRedirect
  /\ Resp.headers response
     = map (fun h => mkHeader (rh_name h) (rh_value h) None) (hr_headers lastRedirect).
Proof.
  unfold Bridge.new_Response.
  destruct (has_null _); [destruct Cookie_of_null; cbn [JS.bind]; [|discriminate]|];
    intros [= <-]; cbn; unfold headers_of; rewrite map_map; split; reflexivity.
Qed.

(** What the promise settles with, once the last hop is known and none of
    its cookie values is answered with [null]. *)
Lemma fromCurlOutputToResponse_cases (result : CurlRequestOutput)
      (hops : list HeaderResult) (lastRedirect : HeaderResult) :
  headerResults result = hops ++ [lastRedirect] ->
  has_null (cookies_of lastRedirect) = false ->
  (exists body,
      fromCurlOutputToResponse result
      = Resolved (Resp.Response_new RESPONSE_CODE_REASONS
                    (response_options result lastRedirect body)))
  \/ (is_set (responseBodyPath result) = true
      /\ exists e, fromCurlOutputToResponse result = Rejected e).
Proof.
  intros Hhops Hnull. unfold Bridge.fromCurlOutputToResponse.
  rewrite Hhops, last_snoc, !(new_Response_typed _ _ _ Hnull). cbn [settle].
  destruct (is_set (responseBodyPath result)); cbn [negb].
  - destruct (readCurlResponse _ _) as [bodyResult|e].
    + destruct (is_set (br_error bodyResult)).
      * right. split; [reflexivity|]. now eexists.
      * left. rewrite (new_Response_typed _ _ _ Hnull). now eexists.
    + right. split; [reflexivity|]. now eexists.
  - left. now eexists.
Qed.

(** The status of a lifted response is the table's entry for the last
    hop's code; the hop's own reason phrase, passed as [reason] and
    [status], does not reach it. *)
Lemma lifted_status_is_table_entry (result : CurlRequestOutput)
      (lastRedirect : HeaderResult) (body : Resp.ustring) :
  Resp.status (Resp.Response_new RESPONSE_CODE_REASONS
                 (response_options result lastRedirect body))
  = RESPONSE_CODE_REASONS (hr_code lastRedirect).
Proof. reflexivity. Qed.

(** A value that [Cookie.parse] answers with [null] is not dropped: it goes
    to [new Cookie(null)], whose error rejects the promise and whose cookie
    is in the response. *)
Lemma null_answer_is_kept (result : CurlRequestOutput)
      (hops : list HeaderResult) (lastRedirect : HeaderResult)
      (h : ResponseHeader) :
  headerResults result = hops ++ [lastRedirect] ->
  hr_headers lastRedirect = [ h ] ->
  toLowerCase (rh_name h) = "set-cookie" ->
  Cookie_parse (rh_value h) = Null ->
  is_set (responseBodyPath result) = false ->
  match Cookie_of_null, fromCurlOutputToResponse result with
  | Throw e, Rejected e' => e' = e
  | Ok c, Resolved response => Resp.cookies response = [ c ]
  | _, _ => False
  end.
Proof.
  intros Hhops Hh Hname Hnull Hpath. unfold Bridge.fromCurlOutputToResponse.
  rewrite Hhops, last_snoc, Hpath. cbn [negb].
  unfold Bridge.new_Response, Bridge.cookies_of, cookieHeaders_of. rewrite Hh.
  rewrite filter_cons, decide_True by exact Hname.
  cbn [filter map not_undefined]. unfold cookie_of. rewrite Hnull.
  rewrite filter_nil. cbn [map not_undefined has_null existsb orb].
  destruct Cookie_of_null; reflexivity.
Qed.

(** C6: the cookies of the lifted [Response] are those of the final hop's
    headers alone: each header named [Set-Cookie] in any letter case is
    parsed on its own; a value the parser answers with a cookie gives that
    cookie, with the fields the parser found, and a value it answers with
    [undefined] adds nothing and raises nothing.  (Values answered with
    [null] are left aside.) *)
Theorem cookies_come_from_final_hop (result : CurlRequestOutput)
        (hops : list HeaderResult) (lastRedirect : HeaderResult) :
  toLowerCase "Set-Cookie" = "set-cookie" ->
  headerResults result = hops ++ [lastRedirect] ->
  (forall h, In h (hr_headers lastRedirect) ->
             toLowerCase (rh_name h) = "set-cookie" ->
             Cookie_parse (rh_value h) <> Null) ->
  match fromCurlOutputToResponse result with
  | Resolved response =>
      Resp.cookies response = set_cookie_scan (hr_headers lastRedirect)
  | Rejected _ => is_set (responseBodyPath result) = true
  end
  /\ (is_set (responseBodyPath result) = false ->
      exists response, fromCurlOutputToResponse result = Resolved response).
Proof.
  intros Hlower Hhops Hnull.
  pose proof (cookies_without_null lastRedirect Hnull) as Hfree.
  destruct (fromCurlOutputToResponse_cases result hops lastRedirect Hhops Hfree)
    as [[body Hres]|[Hset [e Hrej]]].
  - rewrite Hres. split.
    + cbn [Resp.Response_new Resp.cookies Resp.ro_cookie Bridge.response_options].
      now apply cookies_of_scan.
    + intros _. now eexists.
  - rewrite Hrej. split; [exact Hset|].
    intros Hunset. rewrite Hunset in Hset. discriminate.
Qed.

End Lifted.

(** The headers of the specification's example, in mixed letter case and
    with a value that has no [=], after an earlier hop that set a cookie of
    its own; the parser is the one of the standard rules.  [malformed===]
    parses, to the name [malformed] and the value [==]. *)
Lemma cookies_come_from_final_hop_witness :
  let hop headers := mkHeaderResult headers "HTTP/1.1" 200 "OK" in
  let final := hop [ mkResponseHeader "content-type" "text/plain";
                     mkResponseHeader "Set-Cookie" "sid=abc; Path=/";
                     mkResponseHeader "set-cookie" "no equals sign";
                     mkResponseHeader "SET-COOKIE" "malformed===" ] in
  let result := mkCurlRequestOutput (mkResponsePatch None 12) []
                  [ hop [ mkResponseHeader "set-cookie" "old=1" ]; final ] None in
  match Bridge.fromCurlOutputToResponse lower_ascii_string (fun _ => None)
          (Cookie_parse_standard (fun _ => None))
          (Throw (mkError "TypeError" "Cannot read properties of null (reading 'key')"))
          (fun _ _ => Rejected (Error "unused")) result with
  | Resolved response =>
      map (fun c => (c_key (cookie_options c), c_value (cookie_options c),
                     c_path (cookie_options c)))
          (Resp.cookies response)
      = [ ("sid", "abc", VStr "/"); ("malformed", "==", VNull) ]
  | Rejected _ => False
  end.
Proof.
  cbv zeta.
  assert (Hnull : forall h,
             In h [ mkResponseHeader "content-type" "text/plain";
                    mkResponseHeader "Set-Cookie" "sid=abc; Path=/";
                    mkResponseHeader "set-cookie" "no equals sign";
                    mkResponseHeader "SET-COOKIE" "malformed===" ] ->
             lower_ascii_string (rh_name h) = "set-cookie" ->
             Cookie_parse_standard (fun _ => None) (rh_value h) <> Null).
  { intros h Hin _. simpl in Hin.
    destruct Hin as [<-|[<-|[<-|[<-|[]]]]]; vm_compute; discriminate. }
  generalize (proj1 (cookies_come_from_final_hop lower_ascii_string (fun _ => None)
                       (Cookie_parse_standard (fun _ => None))
                       (Throw (mkError "TypeError"
                                 "Cannot read properties of null (reading 'key')"))
                       (fun _ _ => Rejected (Error "unused"))
                       (mkCurlRequestOutput (mkResponsePatch None 12) []
                          [ mkHeaderResult [ mkResponseHeader "set-cookie" "old=1" ]
                              "HTTP/1.1" 200 "OK";
                            mkHeaderResult
                              [ mkResponseHeader "content-type" "text/plain";
                                mkResponseHeader "Set-Cookie" "sid=abc; Path=/";
                                mkResponseHeader "set-cookie" "no equals sign";
                                mkResponseHeader "SET-COOKIE" "malformed===" ]
                              "HTTP/1.1" 200 "OK" ] None)
                       [ mkHeaderResult [ mkResponseHeader "set-cookie" "old=1" ]
                           "HTTP/1.1" 200 "OK" ]
                       (mkHeaderResult
                          [ mkResponseHeader "content-type" "text/plain";
                            mkResponseHeader "Set-Cookie" "sid=abc; Path=/";
                            mkResponseHeader "set-cookie" "no equals sign";
                            mkResponseHeader "SET-COOKIE" "malformed===" ]
                          "HTTP/1.1" 200 "OK")
                       eq_refl eq_refl Hnull)).
  intros H.
  exact (f_equal (map (fun c => (c_key (cookie_options c),
                                 c_value (cookie_options c),
                                 c_path (cookie_options c)))) H).
Defined.

(** The example of the specification as it stands: the two headers
    [Set-Cookie: sid=abc; Path=/] and [Set-Cookie: malformed===] give two
    cookies, not one. *)
Lemma malformed_value_is_a_cookie :
  let final := mkHeaderResult [ mkResponseHeader "Set-Cookie" "sid=abc; Path=/";
                                mkResponseHeader "Set-Cookie" "malformed===" ]
                 "HTTP/1.1" 200 "OK" in
  let result := mkCurlRequestOutput (mkResponsePatch None 12) [] [ final ] None in
  match Bridge.fromCurlOutputToResponse lower_ascii_string (fun _ => None)
          (Cookie_parse_standard (fun _ => None))
          (Throw (mkError "TypeError" "Cannot read properties of null (reading 'key')"))
          (fun _ _ => Rejected (Error "unused")) result with
  | Resolved response =>
      map (fun c => (c_key (cookie_options c), c_value (cookie_options c)))
          (Resp.cookies response)
      = [ ("sid", "abc"); ("malformed", "==") ]
      /\ List.length (Resp.cookies response) <> 1%nat
  | Rejected _ => False
  end.
Proof. vm_compute. split; [reflexivity|discriminate]. Qed.

End LiftFacts.

(** ** [sendRequest] *)

Module DispatchFacts.
Import Bridge.

Section Calls.

Variable toLowerCase : string -> string.
Variable Settings : Type.
Variable followRedirects : Settings -> bool.
Variable Url_parse : string -> Req.Url.
Variable Url_toString : Req.Url -> string.
Variable formdata_toString : list FormParam -> result string.
Variable urlencoded_toString : list QueryParam -> result string.
Variable JSON_stringify : JS.value -> result string.
Variable QueryParam_parse : string -> list (string * JS.value).
Variable RESPONSE_CODE_REASONS : Z -> option string.
Variable Cookie_parse : string -> nullable ParsedCookie.
Variable Cookie_of_null : result Cookie.
Variable readCurlResponse : string -> option string -> Settled BodyResult.

Local Abbreviation sendRequest :=
  (Bridge.sendRequest toLowerCase Settings followRedirects Url_parse Url_toString
     formdata_toString urlencoded_toString JSON_stringify QueryParam_parse
     RESPONSE_CODE_REASONS Cookie_parse Cookie_of_null readCurlResponse).
Local Abbreviation fromRequestToCurlOptions :=
  (Bridge.fromRequestToCurlOptions toLowerCase Settings followRedirects Url_parse
     Url_toString formdata_toString urlencoded_toString JSON_stringify
     QueryParam_parse).
Local Abbreviation fromCurlOutputToResponse :=
  (Bridge.fromCurlOutputToResponse toLowerCase RESPONSE_CODE_REASONS Cookie_parse
     Cookie_of_null readCurlResponse).

Lemma lower_string (st : Settings) (url id : string) (sigma : Req.Store) :
  exists options,
    fromRequestToCurlOptions (ReqString url) st id sigma = Ok (options, sigma)
    /\ requestId options = adhoc_id id.
Proof. eexists. split; reflexivity. Qed.

(** Whatever is sent, the engine is not called before the entry is set. *)
Lemma registration_precedes_dispatch curlRequest (st : Settings)
      (request : RequestLike) (id : string) reg sigma (rid : string) :
  In (CurlRequest rid) (trace (sendRequest curlRequest st request id reg sigma)) ->
  exists rest,
    trace (sendRequest curlRequest st request id reg sigma)
    = SetCancel rid :: CurlRequest rid :: rest.
Proof.
  unfold Bridge.sendRequest.
  destruct (fromRequestToCurlOptions request st id sigma) as [[options sigma']|e];
    cbn [trace]; [|intros []].
  destruct (curlRequest options) as [err|s]; cbn [trace In].
  - intros [H|[H|[H|[H|[]]]]]; try discriminate H. injection H as <-. now eexists.
  - intros [H|[H|[H|[]]]]; try discriminate H.
    + injection H as <-. now eexists.
    + destruct s as [output|e]; cbn in H;
        [destruct (fromCurlOutputToResponse output)|]; discriminate H.
Qed.

(** A lowering that throws leaves the registry as it was: nothing was set. *)
Lemma failed_lowering_sets_nothing curlRequest (st : Settings)
      (request : RequestLike) (id : string) reg sigma (e : JsError) :
  fromRequestToCurlOptions request st id sigma = Throw e ->
  sendRequest curlRequest st request id reg sigma = mkRun reg sigma [] (Some e).
Proof. unfold Bridge.sendRequest. now intros ->. Qed.

(** When the dispatch expression itself throws, the [catch] block removes
    the entry and reports a message. *)
Lemma thrown_dispatch_removes_entry (st : Settings) (url id : string) reg sigma
      (err : JsError) :
  let run := sendRequest (fun _ => Throws err) st (ReqString url) id reg sigma in
  registry run !! adhoc_id id = None
  /\ In (DeleteCancel (adhoc_id id)) (trace run).
Proof.
  cbv zeta. unfold Bridge.sendRequest. cbn.
  unfold deleteCancelRequestFunctionMap. split.
  - apply lookup_delete_eq.
  - right; right; left; reflexivity.
Qed.

(** C3, at the input: a bare URL string whose dispatch gives a promise that
    is rejected with [e] (a transport failure, or the abort of a cancelled
    request).  The entry is set before the engine is called, the callback
    receives [e], and the entry is still in the registry when the call is
    over: the promise's [.catch] does not remove it. *)
Theorem rejected_dispatch_keeps_entry (st : Settings) (url id : string)
        (reg : gmap string CancelFn) (sigma : Req.Store) (e : JsError) :
  let run := sendRequest (fun _ => Settles (Rejected e)) st (ReqString url) id reg sigma in
  trace run = [ SetCancel (adhoc_id id); CurlRequest (adhoc_id id);
                Callback (Some (Caught e)) None ]
  /\ registry run !! adhoc_id id = Some (mkCancelFn (adhoc_id id))
  /\ thrown run = None.
Proof.
  cbv zeta. unfold Bridge.sendRequest. cbn.
  unfold setCancelRequestFunctionMap.
  split; [reflexivity|split; [apply lookup_insert_eq|reflexivity]].
Qed.

(** C9: for a bare URL string and an engine result whose [headerResults] is
    not empty, every [Response] handed to the callback has the code of the
    last [headerResults] entry and that entry's headers; and a [Response] is
    handed over whenever no stored body has to be read, or the read gives a
    body without an error (no cookie value of the last entry being
    answered with [null] by the parser). *)
Theorem string_request_gets_last_hop (st : Settings) (url id : string)
        (reg : gmap string CancelFn) (sigma : Req.Store)
        (output : CurlRequestOutput) (hops : list HeaderResult)
        (lastRedirect : HeaderResult) :
  headerResults output = hops ++ [lastRedirect] ->
  let run := sendRequest (fun _ => Settles (Resolved output)) st
               (ReqString url) id reg sigma in
  (forall error response,
      In (Callback error (Some response)) (trace run) ->
      error = None
      /\ Resp.code response = hr_code lastRedirect
      /\ Resp.headers response
         = map (fun h => mkHeader (rh_name h) (rh_value h) None)
               (hr_headers lastRedirect))
  /\ ((forall h, In h (hr_headers lastRedirect) ->
                 toLowerCase (rh_name h) = "set-cookie" ->
                 Cookie_parse (rh_value h) <> Null) ->
      is_set (responseBodyPath output) = false
      \/ (exists bodyResult,
             readCurlResponse (or_empty (responseBodyPath output))
               (bodyCompression (patch output)) = Resolved bodyResult
             /\ is_set (br_error bodyResult) = false) ->
      exists response,
        trace run = [ SetCancel (adhoc_id id); CurlRequest (adhoc_id id);
                      Callback None (Some response) ]
        /\ Resp.code response = hr_code lastRedirect)
  /\ thrown run = None.
Proof.
  intros Hhops. cbv zeta. unfold Bridge.sendRequest. cbn.
  unfold Bridge.fromCurlOutputToResponse. rewrite Hhops, last_snoc.
  assert (Hbuilt : forall body,
             (forall error response,
                 In (Callback error (Some response))
                    [ SetCancel (adhoc_id id); CurlRequest (adhoc_id id);
                      match settle (Bridge.new_Response toLowerCase RESPONSE_CODE_REASONS
                                      Cookie_parse Cookie_of_null output lastRedirect body) with
                      | Resolved transformedOutput => Callback None (Some transformedOutput)
                      | Rejected e => Callback (Some (Caught e)) None
                      end ] ->
                 error = None
                 /\ Resp.code response = hr_code lastRedirect
                 /\ Resp.headers response
                    = map (fun h => mkHeader (rh_name h) (rh_value h) None)
                          (hr_headers lastRedirect))
             /\ ((forall h, In h (hr_headers lastRedirect) ->
                            toLowerCase (rh_name h) = "set-cookie" ->
                            Cookie_parse (rh_value h) <> Null) ->
                 exists response,
                   [ SetCancel (adhoc_id id); CurlRequest (adhoc_id id);
                     match settle (Bridge.new_Response toLowerCase RESPONSE_CODE_REASONS
                                     Cookie_parse Cookie_of_null output lastRedirect body) with
                     | Resolved transformedOutput => Callback None (Some transformedOutput)
                     | Rejected e => Callback (Some (Caught e)) None
                     end ]
                   = [ SetCancel (adhoc_id id); CurlRequest (adhoc_id id);
                       Callback None (Some response) ]
                   /\ Resp.code response = hr_code lastRedirect)).
  { intros body. split.
    - destruct (Bridge.new_Response _ _ _ _ _ _ body) as [response'|e] eqn:Hnew;
        cbn [settle]; intros error response [H|[H|[H|[]]]]; try discriminate H.
      injection H as <- <-. split; [reflexivity|].
      exact (LiftFacts.new_Response_code_headers _ _ _ _ _ _ _ _ Hnew).
    - intros Hnull.
      rewrite (LiftFacts.new_Response_typed _ _ _ _ _ _ _
                 (LiftFacts.cookies_without_null _ _ _ Hnull)).
      cbn [settle]. eexists. split; reflexivity. }
  destruct (is_set (responseBodyPath output)) eqn:Hpath; cbn [negb].
  - destruct (readCurlResponse _ _) as [bodyResult|e] eqn:Hread.
    + destruct (is_set (br_error bodyResult)) eqn:Herr.
      * split; [|split; [|reflexivity]].
        -- intros error response [H|[H|[H|[]]]]; discriminate H.
        -- intros _ [H|[bodyResult' [[= <-] H]]]; [discriminate H|].
           rewrite H in Herr. discriminate Herr.
      * split; [|split; [|reflexivity]].
        -- apply (Hbuilt (br_body bodyResult)).
        -- intros Hnull _. now apply (Hbuilt (br_body bodyResult)).
    + split; [|split; [|reflexivity]].
      * intros error response [H|[H|[H|[]]]]; discriminate H.
      * intros _ [H|[bodyResult' [H _]]]; discriminate H.
  - split; [|split; [|reflexivity]].
    + apply (Hbuilt []).
    + intros Hnull _. now apply (Hbuilt []).
Qed.

End Calls.

(** Three hops, 301 then 302 then 200: the callback gets a response with
    code 200. *)
Lemma string_request_gets_last_hop_witness :
  let hop code reason := mkHeaderResult [ mkResponseHeader "server" "x" ] "HTTP/1.1" code reason in
  let output := mkCurlRequestOutput (mkResponsePatch None 12) []
                  [ hop 301%Z "Moved Permanently"; hop 302%Z "Found"; hop 200%Z "OK" ]
                  None in
  let run := Bridge.sendRequest lower_ascii_string unit (fun _ => true)
               (fun s => Req.mkUrl s []) Req.href
               (fun _ => Ok "") (fun _ => Ok "") (fun _ => Ok "") (fun _ => [])
               (fun _ => None) (Cookie_parse_standard (fun _ => None))
               (Throw (mkError "TypeError" "Cannot read properties of null (reading 'key')"))
               (fun _ _ => Rejected (Error "unused"))
               (fun _ => Settles (Resolved output)) tt
               (ReqString "http://127.0.0.1:4010/echo") "u1" ∅ Req.empty_store in
  exists response,
    trace run = [ SetCancel (adhoc_id "u1"); CurlRequest (adhoc_id "u1");
                  Callback None (Some response) ]
    /\ Resp.code response = 200%Z.
Proof.
  cbv zeta.
  pose (hop := fun code reason =>
                 mkHeaderResult [ mkResponseHeader "server" "x" ] "HTTP/1.1" code reason).
  destruct (string_request_gets_last_hop lower_ascii_string unit (fun _ => true)
              (fun s => Req.mkUrl s []) Req.href
              (fun _ => Ok "") (fun _ => Ok "") (fun _ => Ok "") (fun _ => [])
              (fun _ => None) (Cookie_parse_standard (fun _ => None))
              (Throw (mkError "TypeError"
                        "Cannot read properties of null (reading 'key')"))
              (fun _ _ => Rejected (Error "unused"))
              tt "http://127.0.0.1:4010/echo" "u1" ∅ Req.empty_store
              (mkCurlRequestOutput (mkResponsePatch None 12) []
                 [ hop 301%Z "Moved Permanently"; hop 302%Z "Found"; hop 200%Z "OK" ]
                 None)
              [ hop 301%Z "Moved Permanently"; hop 302%Z "Found" ]
              (hop 200%Z "OK") eq_refl)
    as [_ [H _]].
  apply H.
  - intros h Hin Hname. simpl in Hin. destruct Hin as [<-|[]].
    vm_compute in Hname. discriminate Hname.
  - left. reflexivity.
Defined.

End DispatchFacts.

(** ** [Request.clone] *)

Module CloneFacts.
Import Req.

Section Cloning.

Variable Url_parse : string -> Url.
Variable Url_toString : Url -> string.
Variable Url_parseQuery : string -> list QueryParam.
Variable JSON_stringify : JS.value -> result string.
Variable QueryParam_parse : string -> list (string * JS.value).

Local Abbreviation Request_new := (Req.Request_new Url_parse JSON_stringify QueryParam_parse).
Local Abbreviation clone := (Req.clone Url_parse JSON_stringify QueryParam_parse).
Local Abbreviation addQueryParams := (Req.addQueryParams Url_parseQuery).

Lemma Header_roundtrip (hs : list Header) :
  map Header_new (map Header_toJSON hs) = hs.
Proof.
  rewrite map_map. rewrite <- (map_id hs) at 2.
  apply map_ext. now intros [k v d].
Qed.

Lemma FormParam_roundtrip (l : list FormParam) :
  map (fun kv : string * string => mkFormParam (fst kv) (snd kv))
      (map FormParam_toJSON l) = l.
Proof.
  induction l as [|[k v] l IH]; [reflexivity|]. cbn. now rewrite IH.
Qed.

Lemma QueryParam_roundtrip (l : list QueryParam) :
  map (fun kv : string * string => mkQueryParam (fst kv) (snd kv))
      (map (fun q => (qp_key q, qp_value q)) l) = l.
Proof.
  induction l as [|[k v] l IH]; [reflexivity|]. cbn. now rewrite IH.
Qed.

(** Rebuilding a body from the literal [clone] passes never throws, and
    gives the body back when there was one. *)
Lemma RequestBody_new_literal (b : option Body.RequestBody) :
  Body.RequestBody_new JSON_stringify QueryParam_parse (body_literal b)
  = Ok (match b with
        | Some rb => rb
        | None => Body.mkRequestBody None None None None None None
        end).
Proof.
  destruct b as [[m f fd g r ue]|]; [|reflexivity].
  unfold Body.RequestBody_new, body_literal. cbn.
  destruct ue as [l|]; cbn; destruct fd as [l'|]; cbn;
    rewrite ?FormParam_roundtrip, ?QueryParam_roundtrip; reflexivity.
Qed.

(** The constructor keeps a [Url] object it is given: no store cell is
    allocated for it and the request refers to the caller's object. *)
Lemma Request_new_keeps_url_object (options : RequestOptions) (l : loc)
      (sigma sigma' : Store) (r : Request) :
  opt_url options = inr l ->
  Request_new options sigma = Ok (r, sigma') ->
  url r = l /\ urls sigma' = urls sigma.
Proof.
  intros Hurl. unfold Req.Request_new, mbind. rewrite Hurl. cbn [ret].
  destruct (opt_header options) as [[arr|entries]|]; cbn [alloc_hlist];
    (destruct (opt_body options) as [bo|];
     [ unfold lift; destruct (Body.RequestBody_new _ _ bo) as [rb|e];
       [|discriminate] |]);
    cbn; intros [= <- <-]; split; reflexivity.
Qed.

(** [clone] on a request whose references are live: it succeeds; the copy
    has a header list of its own with the same headers, and the source's
    list is untouched; but the copy's [url] is the source's [Url] object. *)
Lemma clone_containers (this : Request) (sigma : Store) (hs : list Header) :
  hlists sigma !! headers this = Some hs ->
  (forall l, body this = Some l -> is_Some (bodies sigma !! l)) ->
  exists c sigma',
    clone this sigma = Ok (c, sigma')
    /\ url c = url this
    /\ urls sigma' = urls sigma
    /\ headers c <> headers this
    /\ hlists sigma' !! headers c = Some hs
    /\ hlists sigma' !! headers this = Some hs.
Proof.
  intros Hhs Hbody.
  assert (Hfresh : fresh (dom (hlists sigma)) <> headers this).
  { intros Heq. apply (is_fresh (dom (hlists sigma))). rewrite Heq.
    apply elem_of_dom. now exists hs. }
  unfold Req.clone, mbind, read_hlist. rewrite Hhs.
  assert (Hb : exists b, read_body_opt (body this) sigma = Ok (b, sigma)).
  { unfold read_body_opt. destruct (body this) as [l|]; [|now eexists].
    destruct (Hbody l eq_refl) as [rb Hrb].
    unfold mbind, read_body. rewrite Hrb. now eexists. }
  destruct Hb as [b ->].
  unfold Req.Request_new, mbind. cbn.
  rewrite Header_roundtrip, RequestBody_new_literal. cbn.
  do 2 eexists. split; [reflexivity|]. cbn.
  repeat match goal with |- _ /\ _ => split end; try reflexivity.
  - exact Hfresh.
  - apply lookup_insert_eq.
  - rewrite lookup_insert_ne by exact Hfresh. exact Hhs.
Qed.

(** C5, at the input [new Request({ url: 'example.com' })]: the clone's
    [url] is the very [Url] object of the source, so adding the query
    parameter [a=1] through the clone changes the source's URL; and the
    clone is not deeply equal to the source, which has no body and no
    certificate where the clone has a [RequestBody] with no mode and an
    empty [Certificate]. *)
Theorem clone_shares_url_with_source :
  let options := mkRequestOptions (inl "example.com") None None None None None None in
  let scenario :=
    r <~ Request_new options ;;
    before <~ view r ;;
    c <~ clone r ;;
    _ <~ addQueryParams c (inr [ mkQueryParam "a" "1" ]) ;;
    after <~ view r ;;
    copy <~ view c ;;
    ret (r, c, before, after, copy) in
  exists r c before after copy sigma,
    scenario empty_store = Ok ((r, c, before, after, copy), sigma)
    /\ url c = url r
    /\ v_url before = Url_parse "https://example.com"
    /\ v_url after
       = Url_addQueryParams [ mkQueryParam "a" "1" ] (Url_parse "https://example.com")
    /\ v_url after <> v_url before
    /\ v_body before = None
    /\ v_body copy = Some (Body.mkRequestBody None None None None None None)
    /\ v_certificate before = None
    /\ v_certificate copy = Some (mkCertificate None None None None None None).
Proof.
  cbv zeta. do 6 eexists.
  split; [vm_compute; reflexivity|].
  repeat match goal with |- _ /\ _ => split end; try reflexivity.
  cbn [v_url]. unfold Url_addQueryParams. intros H.
  apply (f_equal (fun u => List.length (query u))) in H. cbn [query] in H.
  rewrite length_app in H. cbn [List.length] in H.
  change (List.length (query (Url_parse "https://example.com")) + 1
          = List.length (query (Url_parse "https://example.com"))) in H.
  lia.
Qed.

End Cloning.

End CloneFacts.

(** * Further properties *)

(** ** Auth: the two directions composed, and what each reads *)

Module AuthMore.
Import Auth.

(** Case analysis on the [type] switch of [transformAuthentication]. *)
Ltac by_type t :=
  repeat match goal with
         | |- context [ String.eqb t ?s ] =>
             destruct (String.eqb_spec t s) as [->|?]
         end.

(** A type with no case makes [transformAuthentication] throw. *)
Lemma transformAuthentication_no_case (a : AuthJSON) :
  ~ In (auth_type a) sdk_types ->
  transformAuthentication a = Throw (Error ("unknown auth type: " +:+ auth_type a)).
Proof.
  destruct a as [t schemes]. cbn [auth_type]. intros H.
  unfold transformAuthentication. cbn [auth_type].
  AuthFacts.skip_cases H. reflexivity.
Qed.

(** X1: SDK form to engine form and back.  The type comes back unchanged for
    noauth, basic, digest, ntlm, oauth1, oauth2, hawk and asap; the way back
    throws for awsv4, whose engine type ['iam'] has no case, and for netrc;
    the way there throws for every other type. *)
Theorem there_and_back_types (a : AuthJSON) :
  match transformAuthentication a with
  | Ok engine =>
      match transformToPreRequestAuth engine with
      | Ok sdk =>
          In (auth_type a)
             [ "noauth"; "basic"; "digest"; "ntlm"; "oauth1"; "oauth2"; "hawk"; "asap" ]
          /\ get sdk "type" = VStr (auth_type a)
      | Throw e =>
          (auth_type a = "awsv4"
           /\ e = Error "unknown auth type or unsupported auth type: iam")
          \/ (auth_type a = "netrc" /\ e = Error "net rc is not supported yet")
      end
  | Throw e =>
      ~ In (auth_type a) sdk_types
      /\ e = Error ("unknown auth type: " +:+ auth_type a)
  end.
Proof.
  destruct a as [t schemes]. unfold transformAuthentication. cbn [auth_type auth_schemes].
  by_type t; cbn;
    try (split; [tauto|reflexivity]);
    try (left; split; reflexivity);
    try (right; split; reflexivity).
  split; [|reflexivity].
  intros Hin. repeat destruct Hin as [Hin|Hin]; try (symmetry in Hin; contradiction).
  exact Hin.
Qed.

(** X2: what [findValueInObj] finds.  Entries with another key or with an
    empty value are passed over, and the first entry with the key and a
    non-empty value is returned whole; an array with no such entry gives
    [undefined], an absent array the empty string. *)
Theorem findValueInObj_first_filled (targetKey : string) (before after : list KV)
        (kv : KV) :
  kv_key kv = targetKey ->
  kv_value kv <> "" ->
  (forall x, In x before -> kv_key x <> targetKey \/ kv_value x = "") ->
  findValueInObj targetKey (Some (before ++ kv :: after)) = kv_object kv
  /\ findValueInObj targetKey (Some before) = VUndefined
  /\ findValueInObj targetKey None = VStr "".
Proof.
  intros Hkey Hval Hbefore.
  assert (Hskip : forall rest,
             List.find (fun kv0 => truthy (if kv_key kv0 =? targetKey
                                           then VStr (kv_value kv0) else VStr ""))
                       (before ++ rest)
             = List.find (fun kv0 => truthy (if kv_key kv0 =? targetKey
                                             then VStr (kv_value kv0) else VStr ""))
                         rest).
  { intros rest. induction before as [|x before IH]; [reflexivity|].
    cbn [app List.find].
    assert (Hx : truthy (if kv_key x =? targetKey
                         then VStr (kv_value x) else VStr "") = false).
    { destruct (Hbefore x (or_introl eq_refl)) as [Hk|Hv].
      - destruct (String.eqb_spec (kv_key x) targetKey); [contradiction|reflexivity].
      - rewrite Hv. now destruct (kv_key x =? targetKey). }
    rewrite Hx. apply IH. intros y Hy. apply Hbefore. now right. }
  unfold findValueInObj. split; [|split; [|reflexivity]].
  - rewrite Hskip. cbn [List.find]. rewrite Hkey, String.eqb_refl. cbn [truthy].
    destruct (String.eqb_spec (kv_value kv) ""); [contradiction|reflexivity].
  - specialize (Hskip []). rewrite app_nil_r in Hskip. rewrite Hskip. reflexivity.
Qed.

(** Two [username] entries, the first with an empty value. *)
Lemma findValueInObj_first_filled_witness :
  findValueInObj "username"
    (Some [ mkKV "password" "p"; mkKV "username" ""; mkKV "username" "u";
            mkKV "username" "v" ])
  = kv_object (mkKV "username" "u").
Proof.
  refine (proj1 (findValueInObj_first_filled "username"
                   [ mkKV "password" "p"; mkKV "username" "" ]
                   [ mkKV "username" "v" ] (mkKV "username" "u") eq_refl _ _)).
  - discriminate.
  - intros x [<-|[<-|[]]]; [left; discriminate|right; reflexivity].
Defined.

(** X3: the object [transformToPreRequestAuth] returns is [{ type: 'noauth' }],
    or it has the input's [type] and, under the property named by that
    type, an array whose entries each pair a key with the input's property
    of that name. *)
Theorem transformToPreRequestAuth_shape (auth sdk : JS.value) :
  transformToPreRequestAuth auth = Ok sdk ->
  sdk = noauth
  \/ exists t entries,
       sdk = VObj [ ("type", VStr t); (t, VArr entries) ]
       /\ get auth "type" = VStr t
       /\ Forall (fun e => exists k, e = entry auth k) entries.
Proof.
  unfold transformToPreRequestAuth.
  destruct (negb (truthy auth) || negb (truthy (get auth "type")));
    [intros [= <-]; now left|].
  destruct (get auth "type") as [| |b|n|t|o|l]; cbn [is_str]; try discriminate.
  by_type t; try discriminate; intros [= <-];
    try (now left);
    right; do 2 eexists; (split; [reflexivity|split; [reflexivity|]]);
    repeat constructor; eexists; reflexivity.
Qed.

(** A digest object with a [username] and no [password]. *)
Lemma transformToPreRequestAuth_shape_witness :
  let auth := VObj [ ("type", VStr "digest"); ("username", VStr "u") ] in
  let sdk := VObj [ ("type", VStr "digest");
                    ("digest",
                     VArr [ VObj [ ("key", VStr "disabled"); ("value", VUndefined) ];
                            VObj [ ("key", VStr "username"); ("value", VStr "u") ];
                            VObj [ ("key", VStr "password"); ("value", VUndefined) ] ]) ] in
  sdk = noauth
  \/ exists t entries,
       sdk = VObj [ ("type", VStr t); (t, VArr entries) ]
       /\ get auth "type" = VStr t
       /\ Forall (fun e => exists k, e = entry auth k) entries.
Proof.
  cbv zeta.
  apply (transformToPreRequestAuth_shape
           (VObj [ ("type", VStr "digest"); ("username", VStr "u") ])).
  reflexivity.
Defined.

(** X4: [transformAuth] reads [oldAuth] for basic, digest, ntlm and iam only:
    for every other type the result is the same whatever [oldAuth] holds. *)
Theorem transformAuth_reads_four_types (t : string) (o1 o2 : option obj) :
  ~ In t [ AUTH_BASIC; AUTH_DIGEST; AUTH_NTLM; AUTH_AWS_IAM ] ->
  transformAuth t o1 = transformAuth t o2.
Proof.
  unfold AUTH_BASIC, AUTH_DIGEST, AUTH_NTLM, AUTH_AWS_IAM. intros H.
  unfold transformAuth, AUTH_NONE, AUTH_BASIC, AUTH_DIGEST, AUTH_NTLM,
    AUTH_OAUTH_1, AUTH_OAUTH_2, AUTH_AWS_IAM, AUTH_HAWK, AUTH_ASAP.
  by_type t; cbn [orb]; try reflexivity; exfalso; apply H; simpl; tauto.
Qed.

(** The fields that [transformAuthentication] hands over for asap are lost. *)
Lemma transformAuth_reads_four_types_witness :
  transformAuth "asap" (Some [ ("issuer", VStr "me"); ("keyId", VStr "k1") ])
  = transformAuth "asap" None.
Proof.
  apply transformAuth_reads_four_types.
  unfold AUTH_BASIC, AUTH_DIGEST, AUTH_NTLM, AUTH_AWS_IAM. simpl.
  intros H. repeat destruct H as [H|H]; try discriminate H. exact H.
Defined.

End AuthMore.

(** ** RequestBody: emptiness, printing, construction and update *)

Module BodyMore.
Import Body Updates.

Section Bodies.

Variable formdata_toString : list FormParam -> result string.
Variable urlencoded_toString : list QueryParam -> result string.
Variable JSON_stringify : JS.value -> result string.
Variable QueryParam_parse : string -> list (string * JS.value).

Local Abbreviation toString :=
  (Body.toString formdata_toString urlencoded_toString JSON_stringify).
Local Abbreviation RequestBody_new :=
  (Body.RequestBody_new JSON_stringify QueryParam_parse).
Local Abbreviation RequestBody_update :=
  (Updates.RequestBody_update JSON_stringify QueryParam_parse).
Local Abbreviation stringify_values := (Updates.stringify_values JSON_stringify).

(** X5: a body that [isEmpty()] reports empty prints as the empty string,
    whatever the list and JSON printers do. *)
Theorem empty_body_prints_nothing (b : RequestBody) :
  isEmpty b = Ok true -> toString b = "".
Proof.
  unfold isEmpty, Body.toString, Body.toString_try.
  repeat match goal with
         | |- context [ mode_is (mode b) ?s ] => destruct (mode_is (mode b) s)
         end; try discriminate; intros [= H].
  - now destruct (formdata b).
  - now destruct (urlencoded b).
  - now destruct (raw b).
  - now destruct (file b).
  - now destruct (graphql b).
Qed.

(** X6: emptiness of a freshly constructed body, by mode.  A urlencoded body
    is empty when the option is absent or is the empty string, and not empty
    for any array, the empty array included; a formdata body is empty only
    when the option is absent; raw, file and graphql likewise. *)
Theorem constructed_body_emptiness (opts : RequestBodyOptions) (b : RequestBody) :
  RequestBody_new opts = Ok b ->
  (opt_mode opts = Some "urlencoded" ->
   isEmpty b = Ok match opt_urlencoded opts with
                  | None => true
                  | Some (inl s) => s =? ""
                  | Some (inr _) => false
                  end)
  /\ (opt_mode opts = Some "formdata" -> isEmpty b = Ok (is_null (opt_formdata opts)))
  /\ (opt_mode opts = Some "raw" -> isEmpty b = Ok (is_null (opt_raw opts)))
  /\ (opt_mode opts = Some "file" -> isEmpty b = Ok (is_null (opt_file opts)))
  /\ (opt_mode opts = Some "graphql" -> isEmpty b = Ok (is_null (opt_graphql opts))).
Proof.
  unfold Body.RequestBody_new. intros Hnew.
  destruct (opt_urlencoded opts) as [[s|l]|] eqn:Hue; cbn [bind] in Hnew.
  - destruct (String.eqb_spec s "") as [->|Hs]; cbn [bind] in Hnew.
    + injection Hnew as <-. unfold isEmpty. cbn [mode urlencoded formdata raw file graphql].
      repeat split; intros ->; cbn; try reflexivity; now destruct (opt_formdata opts).
    + destruct (stringify_entries JSON_stringify (QueryParam_parse s)) as [l|e];
        cbn [bind] in Hnew; [|discriminate].
      injection Hnew as <-. unfold isEmpty. cbn [mode urlencoded formdata raw file graphql].
      repeat split; intros ->; cbn; try reflexivity; now destruct (opt_formdata opts).
  - injection Hnew as <-. unfold isEmpty. cbn [mode urlencoded formdata raw file graphql].
    repeat split; intros ->; cbn; try reflexivity; now destruct (opt_formdata opts).
  - injection Hnew as <-. unfold isEmpty. cbn [mode urlencoded formdata raw file graphql].
    repeat split; intros ->; cbn; try reflexivity; now destruct (opt_formdata opts).
Qed.

Lemma stringify_values_keys (l : list (string * string)) (l' : list QueryParam) :
  stringify_values l = Ok l' -> map qp_key l' = map fst l.
Proof.
  revert l'. induction l as [|[k v] l IH]; intros l'; cbn.
  - now intros [= <-].
  - destruct (JSON_stringify (VStr v)) as [s|e]; cbn; [|discriminate].
    destruct (Updates.stringify_values JSON_stringify l) as [tl|e]; cbn; [|discriminate].
    intros [= <-]. cbn. f_equal. now apply IH.
Qed.

(** X7: [update(opts)] leaves the body as [new RequestBody(opts)] builds it,
    whatever it was before, unless [opts.urlencoded] is an array; for an
    array, [update] stores [JSON.stringify] of each value, under the same
    keys, where the constructor stores the value itself. *)
Theorem update_versus_constructor (this : RequestBody) (opts : RequestBodyOptions) :
  match opt_urlencoded opts with
  | Some (inr l) =>
      forall l', stringify_values l = Ok l' ->
        exists b,
          RequestBody_new opts = Ok b
          /\ urlencoded b = Some (map (fun kv => mkQueryParam (fst kv) (snd kv)) l)
          /\ RequestBody_update this opts
             = (mkRequestBody (mode b) (file b) (formdata b) (graphql b) (raw b)
                  (Some l'), None)
          /\ map qp_key l' = map fst l
  | _ =>
      forall b, RequestBody_new opts = Ok b -> RequestBody_update this opts = (b, None)
  end.
Proof.
  unfold Body.RequestBody_new, Updates.RequestBody_update.
  destruct (opt_urlencoded opts) as [[s|l]|].
  - intros b. destruct (s =? ""); cbn [bind].
    + now intros [= <-].
    + destruct (stringify_entries JSON_stringify (QueryParam_parse s)); cbn [bind];
        [now intros [= <-]|discriminate].
  - intros l' Hl'. rewrite Hl'. cbn [bind]. eexists. split; [reflexivity|].
    cbn. split; [reflexivity|]. split; [reflexivity|].
    now apply stringify_values_keys.
  - intros b. cbn [bind]. now intros [= <-].
Qed.

End Bodies.

(** A formdata body with no form data, though it has a file and raw text,
    and printers that throw. *)
Lemma empty_body_prints_nothing_witness :
  Body.toString (fun _ => Throw (Error "list")) (fun _ => Throw (Error "list"))
    (fun _ => Throw (Error "json"))
    (mkRequestBody (Some "formdata") (Some "f") None None (Some "text") None) = "".
Proof.
  apply (empty_body_prints_nothing
           (fun _ => Throw (Error "list")) (fun _ => Throw (Error "list"))
           (fun _ => Throw (Error "json"))
           (mkRequestBody (Some "formdata") (Some "f") None None (Some "text") None)).
  reflexivity.
Defined.

(** [JSON.stringify] on strings puts them in quotes (written [<] and [>]
    here): the array value [1] is stored as [<1>] by [update] and as [1] by
    the constructor. *)
Lemma update_versus_constructor_witness :
  let js := fun v : JS.value =>
              match v with
              | VStr s => Ok ("<" +:+ s +:+ ">")
              | _ => Ok "null"
              end in
  let qp := fun _ : string => @nil (string * JS.value) in
  let opts := mkRequestBodyOptions (Some "urlencoded") None None None None
                (Some (inr [ ("a", "1") ])) in
  let old := mkRequestBody (Some "raw") None None None (Some "text") None in
  exists b,
    Body.RequestBody_new js qp opts = Ok b
    /\ urlencoded b = Some [ mkQueryParam "a" "1" ]
    /\ Updates.RequestBody_update js qp old opts
       = (mkRequestBody (mode b) (file b) (formdata b) (graphql b) (raw b)
            (Some [ mkQueryParam "a" "<1>" ]), None)
    /\ map qp_key [ mkQueryParam "a" "<1>" ] = map fst [ ("a", "1") ].
Proof.
  cbv zeta.
  exact (update_versus_constructor
           (fun v => match v with VStr s => Ok ("<" +:+ s +:+ ">") | _ => Ok "null" end)
           (fun _ => [])
           (mkRequestBody (Some "raw") None None None (Some "text") None)
           (mkRequestBodyOptions (Some "urlencoded") None None None None
              (Some (inr [ ("a", "1") ])))
           [ mkQueryParam "a" "<1>" ] eq_refl).
Defined.

(** An empty urlencoded string, an empty urlencoded array, and an empty
    formdata array. *)
Lemma constructed_body_emptiness_witness :
  let js := fun _ : JS.value => Ok "null" in
  let qp := fun _ : string => @nil (string * JS.value) in
  let urlencoded_text := mkRequestBodyOptions (Some "urlencoded") None None None None
                           (Some (inl "")) in
  let urlencoded_list := mkRequestBodyOptions (Some "urlencoded") None None None None
                           (Some (inr [])) in
  let formdata_list := mkRequestBodyOptions (Some "formdata") None (Some []) None None None in
  (forall b, Body.RequestBody_new js qp urlencoded_text = Ok b -> isEmpty b = Ok true)
  /\ (forall b, Body.RequestBody_new js qp urlencoded_list = Ok b -> isEmpty b = Ok false)
  /\ (forall b, Body.RequestBody_new js qp formdata_list = Ok b -> isEmpty b = Ok false).
Proof.
  cbv zeta. split; [|split]; intros b Hb.
  - exact (proj1 (constructed_body_emptiness _ _ _ b Hb) eq_refl).
  - exact (proj1 (constructed_body_emptiness _ _ _ b Hb) eq_refl).
  - exact (proj1 (proj2 (constructed_body_emptiness _ _ _ b Hb)) eq_refl).
Defined.

End BodyMore.

(** ** Response: byte-order marks, [json] and [dataURI] *)

Module RespMore.
Import Resp Content.

(** X9: what [findBOM] takes for a mark.  Its result is the length of one of
    five prefixes the content starts with: the four byte-order marks and
    the single unit [0xBBBF]; it is 0 exactly when the content starts with
    none of them. *)
Theorem findBOM_prefixes (content : ustring) :
  let marks := [0xBBBF]%Z :: byte_order_marks in
  (findBOM content = 0
   /\ forall mark rest, In mark marks -> content <> mark ++ rest)
  \/ (exists mark rest,
         In mark marks /\ content = mark ++ rest
         /\ findBOM content = List.length mark).
Proof.
  cbv zeta. unfold findBOM, code_is, byte_order_marks.
  destruct content as [|a content]; cbn [nth_error].
  { left. split; [reflexivity|].
    intros mark rest Hin. cbn in Hin.
    repeat destruct Hin as [Hin|Hin]; try contradiction; subst mark; discriminate. }
  destruct (Z.eqb_spec a 0xFEFF) as [->|H1].
  { right. exists [0xFEFF%Z], content. cbn. tauto. }
  destruct (Z.eqb_spec a 0xBBBF) as [->|H2].
  { right. exists [0xBBBF%Z], content. cbn. tauto. }
  cbn [orb].
  assert (Hno1 : forall rest, a :: content <> [0xFEFF%Z] ++ rest
                              /\ a :: content <> [0xBBBF%Z] ++ rest).
  { intros rest. split; intros [= Ha _]; contradiction. }
  destruct content as [|b content]; cbn [nth_error].
  { rewrite !andb_false_r. left. split; [reflexivity|].
    intros mark rest Hin. cbn in Hin.
    repeat destruct Hin as [Hin|Hin]; try contradiction; subst mark;
      try apply Hno1; discriminate. }
  destruct (Z.eqb_spec a 0xFE) as [->|H3]; cbn [andb].
  { destruct (Z.eqb_spec b 0xFF) as [->|H4].
    - right. exists [0xFE; 0xFF]%Z, content. cbn. tauto.
    - left. split; [reflexivity|].
      intros mark rest Hin. cbn in Hin.
      repeat destruct Hin as [Hin|Hin]; try contradiction; subst mark;
        intros [= ]; congruence. }
  destruct (Z.eqb_spec a 0xFF) as [->|H5]; cbn [andb].
  { destruct (Z.eqb_spec b 0xFE) as [->|H6].
    - right. exists [0xFF; 0xFE]%Z, content. cbn. tauto.
    - left. split; [reflexivity|].
      intros mark rest Hin. cbn in Hin.
      repeat destruct Hin as [Hin|Hin]; try contradiction; subst mark;
        intros [= ]; congruence. }
  destruct (Z.eqb_spec a 0xEF) as [->|H7]; cbn [andb].
  2:{ left. split; [reflexivity|].
      intros mark rest Hin. cbn in Hin.
      repeat destruct Hin as [Hin|Hin]; try contradiction; subst mark;
        intros [= ]; congruence. }
  destruct (Z.eqb_spec b 0xBB) as [->|H8]; cbn [andb].
  2:{ left. split; [reflexivity|].
      intros mark rest Hin. cbn in Hin.
      repeat destruct Hin as [Hin|Hin]; try contradiction; subst mark;
        intros [= ]; congruence. }
  destruct content as [|c content]; cbn [nth_error].
  { left. split; [reflexivity|].
    intros mark rest Hin. cbn in Hin.
    repeat destruct Hin as [Hin|Hin]; try contradiction; subst mark;
      intros [= ]; congruence. }
  destruct (Z.eqb_spec c 0xBF) as [->|H9].
  - right. exists [0xEF; 0xBB; 0xBF]%Z, content. cbn. tauto.
  - left. split; [reflexivity|].
    intros mark rest Hin. cbn in Hin.
    repeat destruct Hin as [Hin|Hin]; try contradiction; subst mark;
      intros [= ]; congruence.
Qed.

Section JsonMore.

Variable Reviver : Type.
Variable JSON_parse : ustring -> option Reviver -> result JS.value.

Local Abbreviation json := (Resp.json Reviver JSON_parse).

Lemma findBOM_bound (content : ustring) :
  findBOM content <= 3 /\ findBOM content <= List.length content.
Proof.
  unfold findBOM, code_is.
  destruct content as [|a [|b [|c rest]]]; cbn [nth_error List.length];
    repeat match goal with
           | |- context [ Z.eqb ?x ?y ] => destruct (Z.eqb x y)
           end; cbn [orb andb]; split; lia.
Qed.

(** X10: [json] calls [JSON.parse] at most once, on the body with at most
    three leading units removed and nothing else changed; with
    [strict = true] it is the whole body that is parsed, when anything is. *)
Theorem json_parses_a_suffix (r : Response) (reviver : option Reviver)
        (strict : option bool) :
  fst (json r reviver strict) = []
  \/ exists prefix content,
       fst (json r reviver strict) = [content]
       /\ body r = prefix ++ content
       /\ List.length prefix = findBOM (body r)
       /\ List.length prefix <= 3
       /\ (strict = Some true -> prefix = []).
Proof.
  unfold Resp.json, text, slice.
  destruct (findBOM_bound (body r)) as [H3 Hlen].
  destruct (findBOM (body r)) as [|n] eqn:Hn; cbn [Nat.ltb Nat.leb].
  - right. exists [], (body r). cbn. repeat split; lia.
  - destruct strict as [[|]|]; [now left| |];
      right; exists (firstn (S n) (body r)), (skipn (S n) (body r));
      (split; [reflexivity|]); rewrite firstn_skipn, length_firstn;
      repeat split; try lia; discriminate.
Qed.

End JsonMore.

Section DataURI.

Variable table : Z -> option string.
Variable HeaderList_get : list Header -> string -> option string.

Local Abbreviation dataURI := (Content.dataURI HeaderList_get).
Local Abbreviation Response_new := (Resp.Response_new table).

(** X11: [dataURI()] on a constructed response throws exactly when the
    options give no [stream] and no body or an empty one; otherwise the URI
    is fixed by the headers alone, the body is no part of it, and the
    content type in it is never empty. *)
Theorem dataURI_needs_a_body (options : ResponseOptions) :
  (dataURI (Response_new options)
   = Throw (Error "dataURI() failed as response body is not defined")
   <-> ro_stream options = None
       /\ (ro_body options = None \/ ro_body options = Some []))
  /\ (forall uri, dataURI (Response_new options) = Ok uri ->
        exists contentType,
          contentType <> ""
          /\ uri = "data:" +:+ contentType +:+ ";baseg4, <base64-encoded-body>"
          /\ forall options',
               ro_header options' = ro_header options ->
               dataURI (Response_new options') = Ok uri
               \/ dataURI (Response_new options')
                  = Throw (Error "dataURI() failed as response body is not defined")).
Proof.
  unfold Content.dataURI, Resp.Response_new. cbn [stream body headers].
  split.
  - destruct (ro_stream options); cbn [negb].
    + split; [discriminate|]. intros [H _]. discriminate H.
    + destruct (ro_body options) as [[|u b]|]; cbn [negb]; split;
        try discriminate; try tauto.
      intros [_ [H|H]]; discriminate H.
  - intros uri Huri.
    set (ct := contentType (contentInfo HeaderList_get _)) in *.
    assert (Huri' : uri = "data:" +:+ ct +:+ ";baseg4, <base64-encoded-body>").
    { destruct (negb _) in Huri; [discriminate|]. now injection Huri as <-. }
    clear Huri.
    exists ct. split; [|split].
    + subst ct. unfold contentInfo. cbn [contentType].
      destruct (HeaderList_get _ _) as [v|]; [|discriminate].
      destruct (String.eqb_spec v ""); [discriminate|assumption].
    + exact Huri'.
    + intros options' Hh.
      assert (Hct : contentType
                      (contentInfo HeaderList_get
                         {| body := match ro_body options' with Some b => b | None => [] end;
                            code := ro_code options';
                            cookies := match ro_cookie options' with
                                       | Some l => map Cookie_new l
                                       | None => []
                                       end;
                            headers := match ro_header options' with
                                       | Some l => map Header_new l
                                       | None => []
                                       end;
                            responseTime := ro_responseTime options';
                            status := table (ro_code options');
                            stream := ro_stream options' |}) = ct).
      { subst ct. unfold contentInfo. cbn [contentType headers]. now rewrite Hh. }
      rewrite Hct.
      destruct (negb _); [now right|].
      left. now rewrite Huri'.
Qed.

End DataURI.

(** [new Response({ code: 204, responseTime: 3 })] has nothing to encode;
    with a body it gives the URI of the default content type. *)
Lemma dataURI_needs_a_body_witness :
  let get := fun (_ : list Header) (_ : string) => @None string in
  let bare := mkResponseOptions 204 None None None None None 3 None in
  let text := mkResponseOptions 200 None None None (Some [104; 105]%Z) None 3 None in
  Content.dataURI get (Resp.Response_new (fun _ => None) bare)
  = Throw (Error "dataURI() failed as response body is not defined")
  /\ exists contentType,
       contentType <> ""
       /\ "data:text/plain;baseg4, <base64-encoded-body>"
          = "data:" +:+ contentType +:+ ";baseg4, <base64-encoded-body>".
Proof.
  cbv zeta. split.
  - apply (proj1 (dataURI_needs_a_body (fun _ => None) (fun _ _ => None)
                    (mkResponseOptions 204 None None None None None 3 None))).
    split; [reflexivity|now left].
  - destruct (proj2 (dataURI_needs_a_body (fun _ => None) (fun _ _ => None)
                       (mkResponseOptions 200 None None None (Some [104; 105]%Z)
                          None 3 None))
                _ eq_refl) as [ct [H1 [H2 _]]].
    exists ct. split; [exact H1|exact H2].
Defined.

End RespMore.

(** ** Request: reading, removing and replacing headers *)

Module HeadersMore.
Import Req Headers.

Lemma lower_ascii_twice (c : ascii) :
  Bridge.lower_ascii (Bridge.lower_ascii c) = Bridge.lower_ascii c.
Proof. destruct c as [[] [] [] [] [] [] [] []]; reflexivity. Qed.

Lemma lower_ascii_string_twice (s : string) :
  Bridge.lower_ascii_string (Bridge.lower_ascii_string s) = Bridge.lower_ascii_string s.
Proof.
  induction s as [|c s IH]; [reflexivity|].
  cbn. now rewrite lower_ascii_twice, IH.
Qed.

Lemma lower_ascii_string_filled (s : string) :
  s <> "" -> Bridge.lower_ascii_string s <> "".
Proof. destruct s; [contradiction|discriminate]. Qed.

Lemma map_get_set (m : HeaderMap) (k k' : string) (vs : list string) :
  map_get (map_set m k vs) k' = if k =? k' then Some vs else map_get m k'.
Proof.
  induction m as [|[k0 vs0] m IH]; cbn.
  - reflexivity.
  - destruct (String.eqb_spec k0 k) as [->|Hne]; cbn.
    + now destruct (k =? k').
    + rewrite IH. destruct (String.eqb_spec k0 k') as [->|Hne'].
      * destruct (String.eqb_spec k k') as [->|_]; [contradiction|reflexivity].
      * reflexivity.
Qed.

Lemma map_set_keys (m : HeaderMap) (k : string) (vs : list string) :
  map fst (map_set m k vs) = if map_has m k then map fst m else map fst m ++ [k].
Proof.
  unfold map_has. induction m as [|[k0 vs0] m IH]; cbn; [reflexivity|].
  destruct (String.eqb_spec k0 k) as [->|Hne]; cbn; [reflexivity|].
  rewrite IH. now destruct (map_get m k).
Qed.

Lemma map_has_keys (m : HeaderMap) (k : string) :
  map_has m k = false -> ~ In k (map fst m).
Proof.
  unfold map_has. induction m as [|[k0 vs0] m IH]; cbn; [tauto|].
  destruct (String.eqb_spec k0 k) as [->|Hne]; [discriminate|].
  intros H [Heq|Hin]; [contradiction|]. now apply IH.
Qed.

Section Reading.

Variable toLocaleLowerCase : string -> string.
Variable options : option GetHeadersOptions.

Local Abbreviation recase := (Headers.recase toLocaleLowerCase options).
Local Abbreviation each_header := (Headers.each_header toLocaleLowerCase options).
Local Abbreviation settled := (Headers.settled_header toLocaleLowerCase options).
Local Abbreviation values_under := (Headers.values_under_key toLocaleLowerCase options).
Local Abbreviation getHeaders := (Headers.getHeaders toLocaleLowerCase).

Lemma map_get_put (headerMap : HeaderMap) (k v k' : string) :
  map_get (put headerMap k v) k'
  = if k =? k'
    then Some (match map_get headerMap k with Some vs => vs | None => [] end ++ [ v ])
    else map_get headerMap k'.
Proof.
  unfold put, map_has.
  destruct (map_get headerMap k) eqn:Hk; rewrite map_get_set; reflexivity.
Qed.

Lemma put_keys_NoDup (headerMap : HeaderMap) (k v : string) :
  NoDup (map fst headerMap) -> NoDup (map fst (put headerMap k v)).
Proof.
  intros Hnd. unfold put. destruct (map_has headerMap k) eqn:Hhas;
    rewrite map_set_keys, Hhas; [exact Hnd|].
  apply NoDup_app. split; [exact Hnd|]. split.
  - intros x Hx Hx'. apply list_elem_of_In in Hx.
    apply list_elem_of_singleton in Hx'. subst x.
    now apply (map_has_keys _ _ Hhas).
  - apply NoDup_singleton.
Qed.

Lemma each_header_unfold (h : Header) (hs : list Header) (acc : HeaderMap) :
  each_header (h :: hs) acc
  = (settled h :: fst (each_header hs
                         (if included options h
                          then put acc (key (recase h)) (value (recase h))
                          else acc)),
     snd (each_header hs
            (if included options h
             then put acc (key (recase h)) (value (recase h))
             else acc))).
Proof.
  cbn [Headers.each_header]. unfold settled_header, put.
  destruct (included options h);
    match goal with
    | |- (let (_, _) := ?e in _) = _ => destruct e
    end; reflexivity.
Qed.

Lemma each_header_headers (hs : list Header) (acc : HeaderMap) :
  fst (each_header hs acc) = map settled hs.
Proof.
  revert acc. induction hs as [|h hs IH]; intros acc; [reflexivity|].
  rewrite each_header_unfold. cbn [fst map]. now rewrite IH.
Qed.

Lemma each_header_get (hs : list Header) (acc : HeaderMap) (k : string) :
  map_get (snd (each_header hs acc)) k
  = match values_under hs k with
    | [] => map_get acc k
    | vs => Some (match map_get acc k with Some a => a | None => [] end ++ vs)
    end.
Proof.
  revert acc. induction hs as [|h hs IH]; intros acc; [reflexivity|].
  rewrite each_header_unfold. cbn [snd]. rewrite IH.
  unfold values_under_key. cbn [List.filter].
  destruct (included options h); cbn [andb]; [|reflexivity].
  rewrite map_get_put.
  destruct (String.eqb_spec (key (recase h)) k) as [->|Hne]; cbn [map].
  - cbn [value Headers.recase].
    destruct (map value (List.filter _ hs)); [reflexivity|].
    now rewrite <- app_assoc.
  - reflexivity.
Qed.

Lemma each_header_keys_NoDup (hs : list Header) (acc : HeaderMap) :
  NoDup (map fst acc) -> NoDup (map fst (snd (each_header hs acc))).
Proof.
  revert acc. induction hs as [|h hs IH]; intros acc Hnd; [exact Hnd|].
  rewrite each_header_unfold. cbn [snd]. apply IH.
  destruct (included options h); [now apply put_keys_NoDup|exact Hnd].
Qed.

(** The tests of the callback, written out. *)
Lemma included_tests (h : Header) :
  included options h
  = negb (match options with Some o => gh_enabled o | None => false end
          && match disabled h with Some true => true | _ => false end)
    && negb (match options with Some o => gh_sanitizeKeys o | None => false end
             && (value h =? ""))
    && negb (key h =? "").
Proof.
  unfold included, flag.
  destruct options as [[ic en mv sk]|]; cbn;
    repeat match goal with
           | |- context [ if ?b then _ else _ ] => destruct b; cbn
           | |- context [ match disabled h with _ => _ end ] =>
               destruct (disabled h) as [[|]|]; cbn
           end;
    destruct (value h =? ""), (key h =? ""); reflexivity.
Qed.

Lemma settled_header_cases (h : Header) :
  settled h
  = if included options h && match options with Some o => gh_ignoreCase o | None => false end
    then mkHeader (toLocaleLowerCase (key h)) (value h) (disabled h)
    else h.
Proof.
  unfold settled_header, Headers.recase, flag.
  destruct (included options h); [|reflexivity]. cbn [andb].
  destruct options as [[[|] en mv sk]|]; cbn; [reflexivity| |]; now destruct h.
Qed.

Section Again.

Hypothesis lower_twice :
  forall s, toLocaleLowerCase (toLocaleLowerCase s) = toLocaleLowerCase s.
Hypothesis lower_filled : forall s, s <> "" -> toLocaleLowerCase s <> "".

Lemma included_recase (h : Header) :
  included options h = true -> included options (recase h) = true.
Proof.
  rewrite !included_tests. unfold Headers.recase. cbn [key value disabled].
  destruct (flag gh_ignoreCase options); [|now destruct h].
  destruct (String.eqb_spec (key h) "") as [Hk|Hk];
    [now rewrite !andb_false_r|].
  destruct (String.eqb_spec (toLocaleLowerCase (key h)) "") as [Hl|_];
    [now apply lower_filled in Hl|].
  trivial.
Qed.

Lemma recase_twice (h : Header) : recase (recase h) = recase h.
Proof.
  unfold Headers.recase. cbn [key value disabled].
  destruct (flag gh_ignoreCase options); [|reflexivity].
  now rewrite lower_twice.
Qed.

Lemma each_header_settled (hs : list Header) (acc : HeaderMap) :
  each_header (map settled hs) acc = each_header hs acc.
Proof.
  revert acc. induction hs as [|h hs IH]; intros acc; [reflexivity|].
  cbn [map]. rewrite !each_header_unfold.
  assert (Hi : included options (settled h) = included options h).
  { unfold settled_header. destruct (included options h) eqn:Hi; [|exact Hi].
    now apply included_recase. }
  assert (Hs : settled (settled h) = settled h).
  { unfold settled_header at 1. rewrite Hi. unfold settled_header.
    destruct (included options h) eqn:Hinc; [|reflexivity]. apply recase_twice. }
  assert (Hr : included options h = true -> recase (settled h) = recase h).
  { intros Hinc. unfold settled_header. rewrite Hinc. apply recase_twice. }
  rewrite Hs, Hi. destruct (included options h) eqn:Hinc.
  - rewrite (Hr eq_refl). now rewrite IH.
  - now rewrite IH.
Qed.

End Again.


(** X13: [getHeaders] rewrites the request's headers in place: under
    [ignoreCase] each listed header gets its key through
    [toLocaleLowerCase], and nothing else changes.  Lower-casing being
    idempotent and never emptying a key, asking again gives the same object
    and changes nothing more; without [ignoreCase] the first call changes
    nothing either. *)
Theorem getHeaders_settles_keys (this : Request) (sigma : Store) (hs : list Header) :
  (forall s, toLocaleLowerCase (toLocaleLowerCase s) = toLocaleLowerCase s) ->
  (forall s, s <> "" -> toLocaleLowerCase s <> "") ->
  hlists sigma !! headers this = Some hs ->
  let ignoreCase := match options with Some o => gh_ignoreCase o | None => false end in
  let enabled := match options with Some o => gh_enabled o | None => false end in
  let sanitizeKeys := match options with Some o => gh_sanitizeKeys o | None => false end in
  let listed (h : Header) :=
    negb (enabled && match disabled h with Some true => true | _ => false end)
    && negb (sanitizeKeys && (value h =? ""))
    && negb (key h =? "") in
  exists m sigma',
    getHeaders this options sigma = Ok (m, sigma')
    /\ hlists sigma' !! headers this
       = Some (map (fun h => if listed h && ignoreCase
                             then mkHeader (toLocaleLowerCase (key h)) (value h)
                                           (disabled h)
                             else h) hs)
    /\ getHeaders this options sigma' = Ok (m, sigma')
    /\ (ignoreCase = false -> sigma' = sigma).
Proof.
  intros Htwice Hfilled Hhs. cbv zeta.
  unfold Headers.getHeaders, mbind, read_hlist. rewrite Hhs.
  destruct (each_header hs []) as [hs' m] eqn:Heach. cbn.
  assert (Hhs' : hs' = map settled hs).
  { change hs' with (fst (hs', m)). rewrite <- Heach. apply each_header_headers. }
  assert (Hmap : map settled hs
                 = map (fun h =>
                          if negb (match options with Some o => gh_enabled o | None => false end
                                   && match disabled h with Some true => true | _ => false end)
                             && negb (match options with Some o => gh_sanitizeKeys o | None => false end
                                      && (value h =? ""))
                             && negb (key h =? "")
                             && match options with Some o => gh_ignoreCase o | None => false end
                          then mkHeader (toLocaleLowerCase (key h)) (value h) (disabled h)
                          else h) hs).
  { apply map_ext. intros h. rewrite settled_header_cases, included_tests. reflexivity. }
  do 2 eexists. split; [reflexivity|]. cbn.
  rewrite lookup_insert_eq. split; [now rewrite Hhs', Hmap|]. split.
  - rewrite Hhs', (each_header_settled Htwice Hfilled), Heach. cbn.
    now rewrite insert_insert_eq, Hhs'.
  - intros Hcase.
    assert (Hid : map settled hs = hs).
    { rewrite <- (map_id hs) at 2. apply map_ext. intros h.
      rewrite settled_header_cases, Hcase. now rewrite andb_false_r. }
    rewrite Hhs', Hid, (insert_id _ _ _ Hhs). now destruct sigma.
Qed.

End Reading.


(** The same headers read with [ignoreCase], [enabled] and [sanitizeKeys]:
    afterwards the first one is stored as [x: 1], and the headers that
    were not listed are as they were. *)
Lemma getHeaders_settles_keys_witness :
  let options := Some (mkGetHeadersOptions true true false true) in
  let hs := [ mkHeader "X" "1" (Some false); mkHeader "x" "2" None;
              mkHeader "Y" "" None; mkHeader "Z" "3" (Some true);
              mkHeader "" "4" None ] in
  let this := mkRequest "" 1%positive "GET" 1%positive None
                (Auth.mkAuthJSON "noauth" []) None None in
  let sigma := mkStore ∅ {[ 1%positive := hs ]} ∅ in
  exists m sigma',
    getHeaders Bridge.lower_ascii_string this options sigma = Ok (m, sigma')
    /\ hlists sigma' !! headers this
       = Some [ mkHeader "x" "1" (Some false); mkHeader "x" "2" None;
                mkHeader "Y" "" None; mkHeader "Z" "3" (Some true);
                mkHeader "" "4" None ]
    /\ getHeaders Bridge.lower_ascii_string this options sigma' = Ok (m, sigma').
Proof.
  cbv zeta.
  destruct (getHeaders_settles_keys Bridge.lower_ascii_string
              (Some (mkGetHeadersOptions true true false true))
              (mkRequest "" 1%positive "GET" 1%positive None
                 (Auth.mkAuthJSON "noauth" []) None None)
              (mkStore ∅ {[ 1%positive := [ mkHeader "X" "1" (Some false);
                                            mkHeader "x" "2" None;
                                            mkHeader "Y" "" None;
                                            mkHeader "Z" "3" (Some true);
                                            mkHeader "" "4" None ] ]} ∅)
              [ mkHeader "X" "1" (Some false); mkHeader "x" "2" None;
                mkHeader "Y" "" None; mkHeader "Z" "3" (Some true);
                mkHeader "" "4" None ]
              lower_ascii_string_twice lower_ascii_string_filled)
    as [m [sigma' [Hrun [Hst [Hagain _]]]]]; [reflexivity|].
  exists m, sigma'. split; [exact Hrun|]. split; [exact Hst|exact Hagain].
Defined.

End HeadersMore.

(** ** Request: removing, replacing and adding headers *)

Module HeaderEdits.
Import Req Headers.

Lemma filter_headers_total (f : Header -> result bool) (g : Header -> bool)
      (hs : list Header) :
  (forall h, In h hs -> f h = Ok (g h)) ->
  filter_headers f hs = Ok (List.filter g hs).
Proof.
  induction hs as [|h hs IH]; intros Hf; [reflexivity|].
  cbn. rewrite (Hf h (or_introl eq_refl)). cbn [bind].
  rewrite IH by (intros x Hx; apply Hf; now right). cbn [bind].
  now destruct (g h).
Qed.

Lemma fresh_hlist_differs (sigma : Store) (l : loc) (hs : list Header) :
  hlists sigma !! l = Some hs -> fresh (dom (hlists sigma)) <> l.
Proof.
  intros Hl Heq. apply (is_fresh (dom (hlists sigma))). rewrite Heq.
  apply elem_of_dom. now exists hs.
Qed.

Section Removing.

Variable toLocaleLowerCase : string -> string.

Local Abbreviation removeHeader := (Headers.removeHeader toLocaleLowerCase).
Local Abbreviation stays := (Headers.stays toLocaleLowerCase).

(** X14: [removeHeader] with a string, or with an object that has a [name]
    and a non-empty key.  The request gets a new header list holding, in
    their order, the headers whose key is not empty and is not the one
    given: not the same string, or under [ignoreCase] not the same after
    [toLocaleLowerCase] of both.  Headers with an empty key are dropped
    along; the list object the request had is left as it was. *)
Theorem removeHeader_keeps_the_rest (this : Request) (sigma : Store)
        (hs : list Header) (toRemove : ToRemove) (k : string) (ignoreCase : bool) :
  hlists sigma !! headers this = Some hs ->
  toRemove = RemoveKey k \/ (toRemove = RemoveObject true k /\ k <> "") ->
  exists r sigma',
    removeHeader this toRemove ignoreCase sigma = Ok (r, sigma')
    /\ hlists sigma' !! headers r
       = Some (List.filter
                 (fun h => negb (key h =? "")
                           && negb (if ignoreCase
                                    then toLocaleLowerCase (key h) =? toLocaleLowerCase k
                                    else key h =? k)) hs)
    /\ headers r <> headers this
    /\ hlists sigma' !! headers this = Some hs.
Proof.
  intros Hhs Hto.
  assert (Hf : filter_headers (stays toRemove ignoreCase) hs
               = Ok (List.filter
                       (fun h => negb (key h =? "")
                                 && negb (if ignoreCase
                                          then toLocaleLowerCase (key h)
                                               =? toLocaleLowerCase k
                                          else key h =? k)) hs)).
  { apply filter_headers_total. intros h _. unfold Headers.stays, differs.
    destruct (key h =? ""); [reflexivity|]. cbn [negb andb].
    destruct Hto as [->|[-> Hk]]; [now destruct ignoreCase|].
    destruct (String.eqb_spec k ""); [contradiction|now destruct ignoreCase]. }
  unfold Headers.removeHeader, mbind, read_hlist, lift. rewrite Hhs, Hf. cbn.
  do 2 eexists. split; [reflexivity|]. cbn.
  pose proof (fresh_hlist_differs _ _ _ Hhs) as Hfresh.
  split; [apply lookup_insert_eq|]. split; [exact Hfresh|].
  now rewrite lookup_insert_ne.
Qed.

(** X15: the odd arguments of [removeHeader].  An object with a [name] and an
    empty key removes every header.  An object without a [name] makes the
    call throw only if some header has a non-empty key; otherwise the call
    returns and the request is left with an empty header list. *)
Theorem removeHeader_odd_arguments (this : Request) (sigma : Store)
        (hs : list Header) (k : string) (ignoreCase : bool) :
  hlists sigma !! headers this = Some hs ->
  (exists r sigma',
      removeHeader this (RemoveObject true "") ignoreCase sigma = Ok (r, sigma')
      /\ hlists sigma' !! headers r = Some [])
  /\ match removeHeader this (RemoveObject false k) ignoreCase sigma with
     | Throw e => e = toRemove_type_error /\ Exists (fun h => key h <> "") hs
     | Ok (r, sigma') =>
         Forall (fun h => key h = "") hs /\ hlists sigma' !! headers r = Some []
     end.
Proof.
  intros Hhs. unfold Headers.removeHeader, mbind, read_hlist, lift. rewrite Hhs. split.
  - rewrite (filter_headers_total _ (fun _ => false)).
    + assert (Hnil : List.filter (fun _ : Header => false) hs = []).
      { clear. induction hs; [reflexivity|exact IHhs]. }
      rewrite Hnil. cbn. do 2 eexists. split; [reflexivity|]. cbn.
      apply lookup_insert_eq.
    + intros h _. unfold Headers.stays. now destruct (key h =? "").
  - assert (Hcases : (filter_headers (stays (RemoveObject false k) ignoreCase) hs = Ok []
                      /\ Forall (fun h => key h = "") hs)
                     \/ (filter_headers (stays (RemoveObject false k) ignoreCase) hs
                         = Throw toRemove_type_error
                         /\ Exists (fun h => key h <> "") hs)).
    { clear. induction hs as [|h hs IH]; [left; split; [reflexivity|constructor]|].
      cbn [filter_headers].
      destruct IH as [[-> Hall]|[-> Hex]]; unfold Headers.stays;
        destruct (String.eqb_spec (key h) "") as [Hk|Hk]; cbn [bind].
      - left. split; [reflexivity|]. now constructor.
      - right. split; [reflexivity|]. now apply Exists_cons_hd.
      - right. split; [reflexivity|]. now apply Exists_cons_tl.
      - right. split; [reflexivity|]. now apply Exists_cons_hd. }
    destruct Hcases as [[-> Hall]|[-> Hex]]; cbn.
    + split; [exact Hall|]. apply lookup_insert_eq.
    + split; [reflexivity|exact Hex].
Qed.

End Removing.

(** Removing [a] from [A: 1], [: 2] (empty key), [B: 3], [a: 4]: ignoring
    case only [B: 3] stays, and with the exact comparison [A: 1] stays
    too. *)
Lemma removeHeader_keeps_the_rest_witness :
  let hs := [ mkHeader "A" "1" None; mkHeader "" "2" None; mkHeader "B" "3" None;
              mkHeader "a" "4" None ] in
  let this := mkRequest "" 1%positive "GET" 1%positive None
                (Auth.mkAuthJSON "noauth" []) None None in
  let sigma := mkStore ∅ {[ 1%positive := hs ]} ∅ in
  (exists r sigma',
      removeHeader Bridge.lower_ascii_string this (RemoveKey "a") true sigma
      = Ok (r, sigma')
      /\ hlists sigma' !! headers r = Some [ mkHeader "B" "3" None ]
      /\ headers r <> headers this
      /\ hlists sigma' !! headers this = Some hs)
  /\ (exists r sigma',
         removeHeader Bridge.lower_ascii_string this (RemoveKey "a") false sigma
         = Ok (r, sigma')
         /\ hlists sigma' !! headers r
            = Some [ mkHeader "A" "1" None; mkHeader "B" "3" None ]
         /\ headers r <> headers this
         /\ hlists sigma' !! headers this = Some hs).
Proof.
  cbv zeta. split.
  - apply (removeHeader_keeps_the_rest Bridge.lower_ascii_string
             (mkRequest "" 1%positive "GET" 1%positive None
                (Auth.mkAuthJSON "noauth" []) None None)
             (mkStore ∅ {[ 1%positive := [ mkHeader "A" "1" None; mkHeader "" "2" None;
                                           mkHeader "B" "3" None;
                                           mkHeader "a" "4" None ] ]} ∅)
             [ mkHeader "A" "1" None; mkHeader "" "2" None; mkHeader "B" "3" None;
               mkHeader "a" "4" None ]
             (RemoveKey "a") "a" true).
    + reflexivity.
    + now left.
  - apply (removeHeader_keeps_the_rest Bridge.lower_ascii_string
             (mkRequest "" 1%positive "GET" 1%positive None
                (Auth.mkAuthJSON "noauth" []) None None)
             (mkStore ∅ {[ 1%positive := [ mkHeader "A" "1" None; mkHeader "" "2" None;
                                           mkHeader "B" "3" None;
                                           mkHeader "a" "4" None ] ]} ∅)
             [ mkHeader "A" "1" None; mkHeader "" "2" None; mkHeader "B" "3" None;
               mkHeader "a" "4" None ]
             (RemoveKey "a") "a" false).
    + reflexivity.
    + now left.
Defined.

(** A request whose only header has an empty key, and one with a real
    header, both asked to remove an object that is no [Header]. *)
Lemma removeHeader_odd_arguments_witness :
  let this := mkRequest "" 1%positive "GET" 1%positive None
                (Auth.mkAuthJSON "noauth" []) None None in
  let blank := mkStore ∅ {[ 1%positive := [ mkHeader "" "x" None ] ]} ∅ in
  let real := mkStore ∅ {[ 1%positive := [ mkHeader "A" "1" None ] ]} ∅ in
  match removeHeader Bridge.lower_ascii_string this (RemoveObject false "A") false blank with
  | Throw _ => False
  | Ok (r, sigma') => hlists sigma' !! headers r = Some []
  end
  /\ removeHeader Bridge.lower_ascii_string this (RemoveObject false "A") false real
     = Throw toRemove_type_error.
Proof.
  cbv zeta. split.
  - generalize (proj2 (removeHeader_odd_arguments Bridge.lower_ascii_string
                         (mkRequest "" 1%positive "GET" 1%positive None
                            (Auth.mkAuthJSON "noauth" []) None None)
                         (mkStore ∅ {[ 1%positive := [ mkHeader "" "x" None ] ]} ∅)
                         [ mkHeader "" "x" None ] "A" false eq_refl)).
    vm_compute. intros [_ H]. exact H.
  - generalize (proj2 (removeHeader_odd_arguments Bridge.lower_ascii_string
                         (mkRequest "" 1%positive "GET" 1%positive None
                            (Auth.mkAuthJSON "noauth" []) None None)
                         (mkStore ∅ {[ 1%positive := [ mkHeader "A" "1" None ] ]} ∅)
                         [ mkHeader "A" "1" None ] "A" false eq_refl)).
    vm_compute. intros _. reflexivity.
Defined.

Lemma filter_out_then_in (k : string) (hs : list Header) :
  List.filter (fun h => key h =? k) (filter (fun h => key h <> k) hs) = [].
Proof.
  induction hs as [|h hs IH]; [reflexivity|].
  rewrite filter_cons. destruct (decide (key h <> k)) as [Hne|Heq]; [|exact IH].
  cbn. destruct (String.eqb_spec (key h) k); [contradiction|exact IH].
Qed.

(** X16: [upsertHeader] gives the request a new list: the headers whose key
    is not exactly the new one, in their order, then the new header.  So
    the new header is last and is the only one with its key; headers that
    differ from it in letter case stay; the old list object is unchanged. *)
Theorem upsertHeader_puts_last (this : Request) (sigma : Store) (hs : list Header)
        (header : HeaderOptions) :
  hlists sigma !! headers this = Some hs ->
  exists r sigma' hs',
    upsertHeader this header sigma = Ok (r, sigma')
    /\ hlists sigma' !! headers r = Some hs'
    /\ hs' = filter (fun h => key h <> ho_key header) hs ++ [ Header_new header ]
    /\ last hs' = Some (Header_new header)
    /\ List.filter (fun h => key h =? ho_key header) hs' = [ Header_new header ]
    /\ headers r <> headers this
    /\ hlists sigma' !! headers this = Some hs.
Proof.
  intros Hhs. unfold upsertHeader, mbind, read_hlist. rewrite Hhs. cbn.
  rewrite lookup_insert_eq. cbn.
  do 3 eexists. split; [reflexivity|]. cbn.
  pose proof (fresh_hlist_differs _ _ _ Hhs) as Hfresh.
  rewrite insert_insert_eq, lookup_insert_eq.
  split; [reflexivity|]. split; [reflexivity|]. split; [apply last_snoc|].
  split; [|split; [exact Hfresh|now rewrite lookup_insert_ne]].
  rewrite List.filter_app, filter_out_then_in. cbn.
  now rewrite String.eqb_refl.
Qed.

(** [upsertHeader({ key: 'A', value: '2' })] on [A: 1], [B: 3], [a: 4]. *)
Lemma upsertHeader_puts_last_witness :
  let hs := [ mkHeader "A" "1" None; mkHeader "B" "3" None; mkHeader "a" "4" None ] in
  let this := mkRequest "" 1%positive "GET" 1%positive None
                (Auth.mkAuthJSON "noauth" []) None None in
  let sigma := mkStore ∅ {[ 1%positive := hs ]} ∅ in
  exists r sigma',
    upsertHeader this (mkHeaderOptions "A" "2" None) sigma = Ok (r, sigma')
    /\ hlists sigma' !! headers r
       = Some [ mkHeader "B" "3" None; mkHeader "a" "4" None; mkHeader "A" "2" None ].
Proof.
  cbv zeta.
  destruct (upsertHeader_puts_last
              (mkRequest "" 1%positive "GET" 1%positive None
                 (Auth.mkAuthJSON "noauth" []) None None)
              (mkStore ∅ {[ 1%positive := [ mkHeader "A" "1" None; mkHeader "B" "3" None;
                                            mkHeader "a" "4" None ] ]} ∅)
              [ mkHeader "A" "1" None; mkHeader "B" "3" None; mkHeader "a" "4" None ]
              (mkHeaderOptions "A" "2" None))
    as [r [sigma' [hs' [Hrun [Hlist [Heq _]]]]]]; [reflexivity|].
  exists r, sigma'. split; [exact Hrun|]. rewrite Hlist, Heq. reflexivity.
Defined.

Section CloneThenAdd.

Variable Url_parse : string -> Url.
Variable JSON_stringify : JS.value -> result string.
Variable QueryParam_parse : string -> list (string * JS.value).

Local Abbreviation clone := (Req.clone Url_parse JSON_stringify QueryParam_parse).

(** X17: a clone and its source do not share their header list: a header
    added to either after [clone()] does not show in the other. *)
Theorem clone_has_its_own_headers (this : Request) (sigma : Store)
        (hs : list Header) (h : Header) :
  hlists sigma !! headers this = Some hs ->
  (forall l, body this = Some l -> is_Some (bodies sigma !! l)) ->
  exists c sigma1,
    clone this sigma = Ok (c, sigma1)
    /\ (exists sigma2,
           addHeader c h sigma1 = Ok (tt, sigma2)
           /\ hlists sigma2 !! headers c = Some (hs ++ [ h ])
           /\ hlists sigma2 !! headers this = Some hs)
    /\ (exists sigma2,
           addHeader this h sigma1 = Ok (tt, sigma2)
           /\ hlists sigma2 !! headers this = Some (hs ++ [ h ])
           /\ hlists sigma2 !! headers c = Some hs).
Proof.
  intros Hhs Hbody.
  destruct (CloneFacts.clone_containers Url_parse JSON_stringify QueryParam_parse
              this sigma hs Hhs Hbody)
    as [c [sigma1 [Hclone [_ [_ [Hne [Hc Hthis]]]]]]].
  exists c, sigma1. split; [exact Hclone|].
  unfold addHeader, mbind, read_hlist, write_hlist. rewrite Hc, Hthis. cbn.
  split; eexists; (split; [reflexivity|]); cbn;
    (split; [apply lookup_insert_eq|]);
    rewrite lookup_insert_ne; auto.
Qed.

End CloneThenAdd.

(** A request with one header, cloned; [X-Trace: 1] added afterwards. *)
Lemma clone_has_its_own_headers_witness :
  let this := mkRequest "" 1%positive "GET" 1%positive None
                (Auth.mkAuthJSON "noauth" []) None None in
  let sigma := mkStore {[ 1%positive := mkUrl "https://a.b" [] ]}
                 {[ 1%positive := [ mkHeader "Accept" "*/*" None ] ]} ∅ in
  exists c sigma1,
    Req.clone (fun s => mkUrl s []) (fun _ => Ok "null") (fun _ => []) this sigma
    = Ok (c, sigma1)
    /\ exists sigma2,
         addHeader c (mkHeader "X-Trace" "1" None) sigma1 = Ok (tt, sigma2)
         /\ hlists sigma2 !! headers c
            = Some [ mkHeader "Accept" "*/*" None; mkHeader "X-Trace" "1" None ]
         /\ hlists sigma2 !! headers this = Some [ mkHeader "Accept" "*/*" None ].
Proof.
  cbv zeta.
  destruct (clone_has_its_own_headers (fun s => mkUrl s []) (fun _ => Ok "null")
              (fun _ => [])
              (mkRequest "" 1%positive "GET" 1%positive None
                 (Auth.mkAuthJSON "noauth" []) None None)
              (mkStore {[ 1%positive := mkUrl "https://a.b" [] ]}
                 {[ 1%positive := [ mkHeader "Accept" "*/*" None ] ]} ∅)
              [ mkHeader "Accept" "*/*" None ] (mkHeader "X-Trace" "1" None))
    as [c [sigma1 [Hclone [Hadd _]]]].
  - reflexivity.
  - intros l Hl. discriminate Hl.
  - exists c, sigma1. split; [exact Hclone|exact Hadd].
Defined.

End HeaderEdits.

(** ** Request: [toJSON], the constructor and [update] *)

Module RequestMore.
Import Req Updates.

Section RoundTrip.

Variable Url_parse : string -> Url.
Variable Url_toString : Url -> string.
Variable JSON_stringify : JS.value -> result string.
Variable QueryParam_parse : string -> list (string * JS.value).

Local Abbreviation Request_new := (Req.Request_new Url_parse JSON_stringify QueryParam_parse).
Local Abbreviation toJSON := (Req.toJSON Url_toString).
Local Abbreviation Request_update :=
  (Updates.Request_update Url_parse JSON_stringify QueryParam_parse).

Lemma body_literal_again (b : option Body.RequestBody) :
  body_literal (Some match b with
                     | Some rb => rb
                     | None => Body.mkRequestBody None None None None None None
                     end)
  = body_literal b.
Proof. now destruct b. Qed.

Lemma certificate_literal_again (c : option Certificate) :
  certificate_literal (Some (certificate_literal c)) = certificate_literal c.
Proof. now destruct c. Qed.

(** X18: [toJSON] then [new Request] then [toJSON] gives the first JSON
    again, for a request whose URL prints with a scheme and survives being
    parsed and printed.  [toJSON] itself changes nothing. *)
Theorem toJSON_round_trip (this : Request) (sigma : Store) (u : Url)
        (hs : list Header) :
  urls sigma !! url this = Some u ->
  hlists sigma !! headers this = Some hs ->
  (forall l, body this = Some l -> is_Some (bodies sigma !! l)) ->
  method this <> "" ->
  has_scheme (Url_toString u) = true ->
  Url_toString (Url_parse (Url_toString u)) = Url_toString u ->
  exists j r sigma',
    toJSON this sigma = Ok (j, sigma)
    /\ Request_new j sigma = Ok (r, sigma')
    /\ toJSON r sigma' = Ok (j, sigma').
Proof.
  intros Hu Hhs Hbody Hm Hscheme Hprint.
  assert (Hb : exists b, read_body_opt (body this) sigma = Ok (b, sigma)).
  { unfold read_body_opt. destruct (body this) as [l|]; [|now eexists].
    destruct (Hbody l eq_refl) as [rb Hrb].
    unfold mbind, read_body. rewrite Hrb. now eexists. }
  destruct Hb as [b Hb].
  unfold Req.toJSON, mbind, read_url, read_hlist. rewrite Hu, Hhs, Hb. cbn [ret].
  do 3 eexists. split; [reflexivity|].
  unfold Req.Request_new, mbind. cbn [opt_url opt_method opt_header opt_body
                                        opt_auth opt_proxy opt_certificate].
  rewrite Hscheme. cbn [alloc_url alloc_hlist urls hlists bodies].
  rewrite CloneFacts.Header_roundtrip.
  rewrite (CloneFacts.RequestBody_new_literal JSON_stringify QueryParam_parse).
  cbn [lift alloc_body ret urls hlists bodies].
  destruct (String.eqb_spec (method this) "") as [Heq|_]; [contradiction|].
  split; [reflexivity|].
  unfold read_body_opt, mbind, read_url, read_hlist, read_body, ret.
  do 3 (cbn -[fresh dom insert lookup body_literal certificate_literal];
        rewrite ?lookup_insert_eq).
  rewrite Hprint, body_literal_again, certificate_literal_again.
  reflexivity.
Qed.

(** X19: [update(options)] leaves the request as [new Request(options)]
    builds one, its id kept, when [options.url] is a [Url] object or a
    string with a scheme.  For any string, [update] parses the string as it
    is, where the constructor first puts [https://] before a string
    without a scheme. *)
Theorem update_like_constructor (this : Request) (options : RequestOptions)
        (sigma sigma' : Store) (r : Request) :
  Request_new options sigma = Ok (r, sigma') ->
  ((forall s, opt_url options = inl s -> has_scheme s = true) ->
   Request_update this options sigma
   = ({| id := id this; url := url r; method := method r; headers := headers r;
         body := body r; auth := auth r; proxy := proxy r;
         certificate := certificate r |}, sigma', None))
  /\ (forall s, opt_url options = inl s ->
        urls sigma' !! url r
        = Some (Url_parse (if has_scheme s then s else "https://" +:+ s))
        /\ urls (snd (fst (Request_update this options sigma)))
             !! url (fst (fst (Request_update this options sigma)))
           = Some (Url_parse s)).
Proof.
  unfold Req.Request_new, Updates.Request_update, mbind.
  destruct (opt_url options) as [s|l] eqn:Hurl.
  - destruct (has_scheme s) eqn:Hs; cbn [alloc_url ret];
      (destruct (opt_header options) as [[arr|entries]|]; cbn [alloc_hlist urls hlists bodies];
       (destruct (opt_body options) as [bo|];
        [ unfold lift; destruct (Body.RequestBody_new _ _ bo) as [rb|e];
          [|discriminate] |]);
       cbn; intros [= <- <-]; cbn;
       (split; [ intros Hall; try reflexivity;
                 specialize (Hall s eq_refl); congruence
               | intros s' [= <-]; rewrite ?Hs; split; apply lookup_insert_eq ])).
  - cbn [ret].
    destruct (opt_header options) as [[arr|entries]|]; cbn [alloc_hlist urls hlists bodies];
      (destruct (opt_body options) as [bo|];
       [ unfold lift; destruct (Body.RequestBody_new _ _ bo) as [rb|e];
         [|discriminate] |]);
      cbn; intros [= <- <-]; cbn;
      (split; [reflexivity|intros s' Hs'; discriminate Hs']).
Qed.

End RoundTrip.

(** A POST request with one header, its URL printed as it was written. *)
Lemma toJSON_round_trip_witness :
  let parse := fun s => mkUrl s [] in
  let this := mkRequest "" 1%positive "POST" 1%positive None
                (Auth.mkAuthJSON "noauth" []) None None in
  let sigma := mkStore {[ 1%positive := mkUrl "https://a.b/c" [] ]}
                 {[ 1%positive := [ mkHeader "Accept" "*/*" None ] ]} ∅ in
  exists j r sigma',
    Req.toJSON href this sigma = Ok (j, sigma)
    /\ Req.Request_new parse (fun _ => Ok "null") (fun _ => []) j sigma = Ok (r, sigma')
    /\ Req.toJSON href r sigma' = Ok (j, sigma').
Proof.
  cbv zeta.
  apply (toJSON_round_trip (fun s => mkUrl s []) href (fun _ => Ok "null") (fun _ => [])
           (mkRequest "" 1%positive "POST" 1%positive None
              (Auth.mkAuthJSON "noauth" []) None None)
           (mkStore {[ 1%positive := mkUrl "https://a.b/c" [] ]}
              {[ 1%positive := [ mkHeader "Accept" "*/*" None ] ]} ∅)
           (mkUrl "https://a.b/c" []) [ mkHeader "Accept" "*/*" None ]).
  - reflexivity.
  - reflexivity.
  - intros l Hl. discriminate Hl.
  - discriminate.
  - reflexivity.
  - reflexivity.
Defined.

(** [update({ url: 'https://a.b', method: 'PUT' })] on a request with id
    [req_1]. *)
Lemma update_like_constructor_witness :
  let parse := fun s => mkUrl s [] in
  let options := mkRequestOptions (inl "https://a.b") (Some "PUT") None None None None None in
  let this := mkRequest "req_1" 7%positive "GET" 7%positive None
                (Auth.mkAuthJSON "basic" []) None None in
  let sigma' := mkStore {[ 1%positive := mkUrl "https://a.b" [] ]} {[ 1%positive := [] ]} ∅ in
  Updates.Request_update parse (fun _ => Ok "null") (fun _ => []) this options empty_store
  = (mkRequest "req_1" 1%positive "PUT" 1%positive None
       (Auth.mkAuthJSON "noauth" []) None None, sigma', None).
Proof.
  cbv zeta.
  refine (proj1 (update_like_constructor (fun s => mkUrl s []) (fun _ => Ok "null")
                   (fun _ => [])
                   (mkRequest "req_1" 7%positive "GET" 7%positive None
                      (Auth.mkAuthJSON "basic" []) None None)
                   (mkRequestOptions (inl "https://a.b") (Some "PUT") None None None
                      None None)
                   empty_store
                   (mkStore {[ 1%positive := mkUrl "https://a.b" [] ]}
                      {[ 1%positive := [] ]} ∅)
                   (mkRequest "" 1%positive "PUT" 1%positive None
                      (Auth.mkAuthJSON "noauth" []) None None) _) _).
  - reflexivity.
  - intros s [= <-]. reflexivity.
Defined.

End RequestMore.

(** ** [sendRequest]: every path of a call *)

Module DispatchMore.
Import Bridge.

Section Paths.

Variable toLowerCase : string -> string.
Variable Settings : Type.
Variable followRedirects : Settings -> bool.
Variable Url_parse : string -> Req.Url.
Variable Url_toString : Req.Url -> string.
Variable formdata_toString : list FormParam -> result string.
Variable urlencoded_toString : list QueryParam -> result string.
Variable JSON_stringify : JS.value -> result string.
Variable QueryParam_parse : string -> list (string * JS.value).
Variable RESPONSE_CODE_REASONS : Z -> option string.
Variable Cookie_parse : string -> nullable ParsedCookie.
Variable Cookie_of_null : result Cookie.
Variable readCurlResponse : string -> option string -> Settled BodyResult.
Variable curlRequest : CurlRequestOptions Settings -> Dispatched.

Local Abbreviation sendRequest :=
  (Bridge.sendRequest toLowerCase Settings followRedirects Url_parse Url_toString
     formdata_toString urlencoded_toString JSON_stringify QueryParam_parse
     RESPONSE_CODE_REASONS Cookie_parse Cookie_of_null readCurlResponse curlRequest).
Local Abbreviation fromRequestToCurlOptions :=
  (Bridge.fromRequestToCurlOptions toLowerCase Settings followRedirects Url_parse
     Url_toString formdata_toString urlencoded_toString JSON_stringify
     QueryParam_parse).
Local Abbreviation lower_request :=
  (Bridge.lower_request toLowerCase Settings followRedirects Url_toString
     formdata_toString urlencoded_toString JSON_stringify).

(** X22: what a call does to the registry, for any kind of request that
    lowers.  Entries under other ids are untouched.  The entry under the
    request's id is set and is still there when the promise has settled,
    with a response as well as with an error; it is removed only when the
    dispatch expression throws.  An entry that was there under the same id
    is replaced. *)
Theorem registry_after_a_call (st : Settings) (request : RequestLike) (id : string)
        (reg : gmap string CancelFn) (sigma sigma' : Req.Store)
        (options : CurlRequestOptions Settings) :
  fromRequestToCurlOptions request st id sigma = Ok (options, sigma') ->
  let run := sendRequest st request id reg sigma in
  (forall k, k <> requestId options -> registry run !! k = reg !! k)
  /\ match curlRequest options with
     | Settles _ =>
         registry run !! requestId options = Some (mkCancelFn (requestId options))
     | Throws _ => registry run !! requestId options = None
     end.
Proof.
  intros Hlower. cbv zeta. unfold Bridge.sendRequest. rewrite Hlower.
  unfold setCancelRequestFunctionMap, deleteCancelRequestFunctionMap.
  destruct (curlRequest options) as [err|s]; cbn [registry]; split.
  - intros k Hk. rewrite lookup_delete_ne, lookup_insert_ne by congruence. reflexivity.
  - apply lookup_delete_eq.
  - intros k Hk. now rewrite lookup_insert_ne by congruence.
  - apply lookup_insert_eq.
Qed.

(** X23: a [Request] whose auth type [transformAuthentication] has no case
    for (bearer and apikey among them) makes [sendRequest] throw
    "unknown auth type: <type>": the callback is not called, nothing is
    registered and the engine is not called. *)
Theorem unknown_auth_type_throws (st : Settings) (r : Req.Request) (id : string)
        (reg : gmap string CancelFn) (sigma : Req.Store)
        (hs : list Header) (u : Req.Url) :
  Req.hlists sigma !! Req.headers r = Some hs ->
  Req.urls sigma !! Req.url r = Some u ->
  (forall l, Req.body r = Some l -> is_Some (Req.bodies sigma !! l)) ->
  ~ In (Auth.auth_type (Req.auth r)) Auth.sdk_types ->
  sendRequest st (ReqRequest r) id reg sigma
  = mkRun reg sigma []
      (Some (Error ("unknown auth type: " +:+ Auth.auth_type (Req.auth r)))).
Proof.
  intros Hhs Hu Hbody Htype.
  assert (Hb : exists b, Req.read_body_opt (Req.body r) sigma = Ok (b, sigma)).
  { unfold Req.read_body_opt. destruct (Req.body r) as [l|]; [|now eexists].
    destruct (Hbody l eq_refl) as [rb Hrb].
    unfold Req.mbind, Req.read_body. rewrite Hrb. now eexists. }
  destruct Hb as [b Hb].
  pose proof (AuthMore.transformAuthentication_no_case _ Htype) as Hauth.
  unfold Bridge.sendRequest, Bridge.fromRequestToCurlOptions, Bridge.lower_request,
    Req.mbind, Req.read_hlist, Req.read_url, Req.lift.
  now rewrite Hhs, Hb, Hu, Hauth.
Qed.

(** X24: [suppressUserAgent] of a lowered [Request] is true exactly when the
    request has at least one header, whatever the headers are: the test on
    a disabled [User-Agent] header is mapped over the list, and the length
    of the result is what is compared with 0. *)
Theorem suppressUserAgent_counts_headers (st : Settings) (r : Req.Request)
        (id : string) (sigma sigma' : Req.Store) (hs : list Header)
        (options : CurlRequestOptions Settings) :
  Req.hlists sigma !! Req.headers r = Some hs ->
  lower_request r st id sigma = Ok (options, sigma') ->
  cr_suppressUserAgent (req options) = match hs with [] => false | _ :: _ => true end
  /\ List.length (cr_headers (req options)) = List.length hs.
Proof.
  intros Hhs. unfold Bridge.lower_request, Req.mbind, Req.read_hlist. rewrite Hhs.
  destruct (Req.read_body_opt (Req.body r) sigma) as [[b s1]|e]; [|discriminate].
  destruct (Req.read_url (Req.url r) s1) as [[u s2]|e]; [|discriminate].
  destruct (Req.lift (Auth.transformAuthentication (Req.auth r)) s2) as [[a s3]|e];
    [|discriminate].
  intros [= <- _]. cbn [req cr_suppressUserAgent cr_headers].
  rewrite !length_map. split; [now destruct hs|reflexivity].
Qed.

(** X25: failures after the engine has answered reach the callback as an
    error and no response: an answer with no [headerResults] entry gives the
    TypeError of reading [code] off [undefined], and a stored-body read
    that reports an error gives an [Error] with that message. *)
Theorem late_failures_reach_the_callback (st : Settings) (request : RequestLike)
        (id : string) (reg : gmap string CancelFn) (sigma sigma' : Req.Store)
        (options : CurlRequestOptions Settings) (output : CurlRequestOutput) :
  fromRequestToCurlOptions request st id sigma = Ok (options, sigma') ->
  curlRequest options = Settles (Resolved output) ->
  let run := sendRequest st request id reg sigma in
  let rid := requestId options in
  (headerResults output = [] ->
   trace run = [ SetCancel rid; CurlRequest rid;
                 Callback (Some (Caught undefined_read)) None ])
  /\ (forall hops lastRedirect path body message,
        headerResults output = hops ++ [ lastRedirect ] ->
        responseBodyPath output = Some path -> path <> "" ->
        readCurlResponse path (bodyCompression (patch output))
        = Resolved (mkBodyResult body (Some message)) ->
        message <> "" ->
        trace run = [ SetCancel rid; CurlRequest rid;
                      Callback (Some (Caught (Error message))) None ]).
Proof.
  intros Hlower Hcurl. cbv zeta. unfold Bridge.sendRequest.
  rewrite Hlower, Hcurl. cbn [trace]. unfold Bridge.on_settled, Bridge.fromCurlOutputToResponse.
  split.
  - now intros ->.
  - intros hops lastRedirect path body message Hhops Hpath Hne Hread Hmsg.
    rewrite Hhops, last_snoc, Hpath. cbn [is_set or_empty].
    destruct (String.eqb_spec path ""); [contradiction|]. cbn [negb].
    rewrite Hread. cbn [br_error is_set or_empty].
    destruct (String.eqb_spec message ""); [contradiction|]. reflexivity.
Qed.

End Paths.

(** A request re-using the id [req_1] that is already registered: the old
    entry is replaced, another entry is untouched. *)
Lemma registry_after_a_call_witness :
  let r := Req.mkRequest "req_1" 1%positive "GET" 1%positive None
             (Auth.mkAuthJSON "noauth" []) None None in
  let sigma := Req.mkStore {[ 1%positive := Req.mkUrl "https://a.b" [] ]}
                 {[ 1%positive := [] ]} ∅ in
  let reg : gmap string CancelFn :=
    {[ "req_1" := mkCancelFn "stale"; "other" := mkCancelFn "other" ]} in
  let run := Bridge.sendRequest lower_ascii_string unit (fun _ => true)
               (fun s => Req.mkUrl s []) Req.href
               (fun _ => Ok "") (fun _ => Ok "") (fun _ => Ok "") (fun _ => [])
               (fun _ => None) (Cookie_parse_standard (fun _ => None))
               (Throw (mkError "TypeError" "Cannot read properties of null (reading 'key')"))
               (fun _ _ => Rejected (Error "unused"))
               (fun _ => Settles (Rejected (Error "refused"))) tt
               (ReqRequest r) "u1" reg sigma in
  registry run !! "other" = reg !! "other"
  /\ registry run !! "req_1" = Some (mkCancelFn "req_1").
Proof.
  cbv zeta.
  destruct (registry_after_a_call lower_ascii_string unit (fun _ => true) (fun s => Req.mkUrl s []) Req.href
              (fun _ => Ok "") (fun _ => Ok "") (fun _ => Ok "") (fun _ => [])
              (fun _ => None) (Cookie_parse_standard (fun _ => None))
               (Throw (mkError "TypeError" "Cannot read properties of null (reading 'key')"))
               (fun _ _ => Rejected (Error "unused"))
              (fun _ => Settles (Rejected (Error "refused"))) tt
              (ReqRequest (Req.mkRequest "req_1" 1%positive "GET" 1%positive None
                             (Auth.mkAuthJSON "noauth" []) None None))
              "u1"
              {[ "req_1" := mkCancelFn "stale"; "other" := mkCancelFn "other" ]}
              (Req.mkStore {[ 1%positive := Req.mkUrl "https://a.b" [] ]}
                 {[ 1%positive := [] ]} ∅)
              (Req.mkStore {[ 1%positive := Req.mkUrl "https://a.b" [] ]}
                 {[ 1%positive := [] ]} ∅)
              (mkCurlRequestOptions unit "req_1"
                 (mkCurlReq [] "GET" (mkCurlBody (Some "GET") None) (VObj []) "on"
                    true true "https://a.b" false)
                 "https://a.b" tt []))
    as [Hother Hown]; [reflexivity|].
  split; [apply Hother; discriminate|exact Hown].
Defined.

(** A request with bearer auth. *)
Lemma unknown_auth_type_throws_witness :
  let r := Req.mkRequest "" 1%positive "GET" 1%positive None
             (Auth.mkAuthJSON "bearer" [ ("bearer", [ Auth.mkKV "token" "t" ]) ])
             None None in
  let sigma := Req.mkStore {[ 1%positive := Req.mkUrl "https://a.b" [] ]}
                 {[ 1%positive := [] ]} ∅ in
  Bridge.sendRequest lower_ascii_string unit (fun _ => true)
               (fun s => Req.mkUrl s []) Req.href
    (fun _ => Ok "") (fun _ => Ok "") (fun _ => Ok "") (fun _ => [])
    (fun _ => None) (Cookie_parse_standard (fun _ => None))
               (Throw (mkError "TypeError" "Cannot read properties of null (reading 'key')"))
               (fun _ _ => Rejected (Error "unused"))
    (fun _ => Settles (Rejected (Error "unused"))) tt (ReqRequest r) "u1" ∅ sigma
  = mkRun ∅ sigma [] (Some (Error "unknown auth type: bearer")).
Proof.
  cbv zeta.
  apply (unknown_auth_type_throws lower_ascii_string unit (fun _ => true) (fun s => Req.mkUrl s []) Req.href
           (fun _ => Ok "") (fun _ => Ok "") (fun _ => Ok "") (fun _ => [])
           (fun _ => None) (Cookie_parse_standard (fun _ => None))
               (Throw (mkError "TypeError" "Cannot read properties of null (reading 'key')"))
               (fun _ _ => Rejected (Error "unused"))
           (fun _ => Settles (Rejected (Error "unused"))) tt
           (Req.mkRequest "" 1%positive "GET" 1%positive None
              (Auth.mkAuthJSON "bearer" [ ("bearer", [ Auth.mkKV "token" "t" ]) ])
              None None)
           "u1" ∅
           (Req.mkStore {[ 1%positive := Req.mkUrl "https://a.b" [] ]}
              {[ 1%positive := [] ]} ∅)
           [] (Req.mkUrl "https://a.b" [])).
  - reflexivity.
  - reflexivity.
  - intros l Hl. discriminate Hl.
  - cbn. intros H. repeat destruct H as [H|H]; try discriminate H. exact H.
Defined.

(** One enabled [Accept] header is enough for [suppressUserAgent]. *)
Lemma suppressUserAgent_counts_headers_witness :
  let r := Req.mkRequest "" 1%positive "GET" 1%positive None
             (Auth.mkAuthJSON "noauth" []) None None in
  let sigma := Req.mkStore {[ 1%positive := Req.mkUrl "https://a.b" [] ]}
                 {[ 1%positive := [ mkHeader "Accept" "*/*" (Some false) ] ]} ∅ in
  exists options sigma',
    Bridge.lower_request lower_ascii_string unit (fun _ => true) Req.href
      (fun _ => Ok "") (fun _ => Ok "") (fun _ => Ok "") r tt "u1" sigma
    = Ok (options, sigma')
    /\ cr_suppressUserAgent (req options) = true.
Proof.
  cbv zeta. do 2 eexists. split; [vm_compute; reflexivity|].
  refine (proj1 (suppressUserAgent_counts_headers lower_ascii_string unit (fun _ => true) Req.href
                   (fun _ => Ok "") (fun _ => Ok "") (fun _ => Ok "") tt
                   (Req.mkRequest "" 1%positive "GET" 1%positive None
                      (Auth.mkAuthJSON "noauth" []) None None)
                   "u1"
                   (Req.mkStore {[ 1%positive := Req.mkUrl "https://a.b" [] ]}
                      {[ 1%positive := [ mkHeader "Accept" "*/*" (Some false) ] ]} ∅)
                   _ [ mkHeader "Accept" "*/*" (Some false) ] _ _ _)).
  - reflexivity.
  - vm_compute. reflexivity.
Defined.

(** An answer with no hop at all, to a bare URL string. *)
Lemma late_failures_reach_the_callback_witness :
  let output := mkCurlRequestOutput (mkResponsePatch None 12) [] [] None in
  let run := Bridge.sendRequest lower_ascii_string unit (fun _ => true)
               (fun s => Req.mkUrl s []) Req.href
               (fun _ => Ok "") (fun _ => Ok "") (fun _ => Ok "") (fun _ => [])
               (fun _ => None) (Cookie_parse_standard (fun _ => None))
               (Throw (mkError "TypeError" "Cannot read properties of null (reading 'key')"))
               (fun _ _ => Rejected (Error "unused"))
               (fun _ => Settles (Resolved output)) tt
               (ReqString "http://a.b") "u1" ∅ Req.empty_store in
  trace run = [ SetCancel (adhoc_id "u1"); CurlRequest (adhoc_id "u1");
                Callback (Some (Caught undefined_read)) None ].
Proof.
  cbv zeta.
  refine (proj1 (late_failures_reach_the_callback lower_ascii_string unit (fun _ => true)
                   (fun s => Req.mkUrl s []) Req.href
                   (fun _ => Ok "") (fun _ => Ok "") (fun _ => Ok "") (fun _ => [])
                   (fun _ => None) (Cookie_parse_standard (fun _ => None))
               (Throw (mkError "TypeError" "Cannot read properties of null (reading 'key')"))
               (fun _ _ => Rejected (Error "unused"))
                   (fun _ => Settles (Resolved
                                        (mkCurlRequestOutput (mkResponsePatch None 12)
                                           [] [] None)))
                   tt (ReqString "http://a.b") "u1" ∅ Req.empty_store Req.empty_store
                   (mkCurlRequestOptions unit (adhoc_id "u1")
                      (mkCurlReq [] "GET" (mkCurlBody None None) (VObj []) "on"
                         true true "http://a.b" false)
                      "http://a.b" tt [])
                   _ eq_refl eq_refl) eq_refl).
Defined.

End DispatchMore.
